(** * FolderFormat: the folder-based board format of the kanban plugin

    A shallow embedding of [src/parsers/FolderFormat.ts].  A board lives in a
    folder; every sub-folder is a column (lane) and every [.md] file inside a
    column folder is an item whose front matter carries the item's metadata.

    Conventions of the embedding.
    - JavaScript values are the inductive [Value]; a property that is absent
      ([undefined]) is a lookup that returns [None].
    - JavaScript objects used as string-keyed records ([frontmatter],
      [metadata]) are finite maps [gmap string Value].
    - A string is a sequence of code units; the embedding covers the code
      units below 256 (one [ascii] each).
    - Texts of files are kept in parsed form ([Text]): the YAML codec and the
      Markdown parser are collaborators of the format, which only ever sees a
      text through [parseMarkdown] and only ever writes a front-matter block.
    - The vault is the folder of the board: its children by name, and for
      every column folder its own children by name.  A path
      [boardFolder.path/folder/name] is the pair of the two names; names are
      single path segments.  File operations can fail; which ones do is the
      parameter [fails], and every attempt is recorded in a journal.
    - An [async] method is a function on the world; a method that can throw
      is a computation in the monad [M], whose state survives the throw.
    - Instance ids ([generateInstanceId]) and the enrichment of a loaded
      board by [hydrateBoard] are outside the format and left out; so are
      [mdToBoard], [reparseBoard] and [reloadBoardAsync], which hand a
      placeholder board and the result of the load to the state manager. *)

From Stdlib Require Import ZArith Ascii String List.
From stdpp Require Import base option list gmap strings pretty sorting.

Local Open Scope string_scope.
Local Open Scope Z_scope.

(** ** JavaScript strings *)

Module JsString.

Definition code (c : ascii) : N := N_of_ascii c.

Definition LF : string := String "010"%char "".

(** [/[a-zA-Z]/] *)
Definition isLetter (c : ascii) : bool :=
  ((97 <=? code c) && (code c <=? 122) || (65 <=? code c) && (code c <=? 90))%N.

(** [/[0-9]/] *)
Definition isDigit (c : ascii) : bool :=
  ((48 <=? code c) && (code c <=? 57))%N.

(** [/\s/]: TAB, LF, VT, FF, CR, SPACE and NBSP are the white space and
    line terminator code units below 256. *)
Definition isWhiteSpace (c : ascii) : bool :=
  ((9 <=? code c) && (code c <=? 13) || (code c =? 32) || (code c =? 160))%N.

Fixpoint filter (keep : ascii → bool) (s : string) : string :=
  match s with
  | EmptyString => EmptyString
  | String c r => if keep c then String c (filter keep r) else filter keep r
  end.

Fixpoint trimStart (s : string) : string :=
  match s with
  | EmptyString => EmptyString
  | String c r => if isWhiteSpace c then trimStart r else s
  end.

(** [trimEnd] drops the white space that is followed by white space only. *)
Fixpoint trimEnd (s : string) : string :=
  match s with
  | EmptyString => EmptyString
  | String c r =>
      match trimEnd r with
      | EmptyString => if isWhiteSpace c then EmptyString else String c EmptyString
      | r' => String c r'
      end
  end.

(** [String.prototype.trim] *)
Definition trim (s : string) : string := trimEnd (trimStart s).

Definition lowerChar (c : ascii) : ascii :=
  if ((65 <=? code c) && (code c <=? 90)
      || (192 <=? code c) && (code c <=? 222) && negb (code c =? 215))%N
  then ascii_of_N (code c + 32) else c.

Fixpoint toLowerCase (s : string) : string :=
  match s with
  | EmptyString => EmptyString
  | String c r => String (lowerChar c) (toLowerCase r)
  end.

(** [Array.prototype.join('')] *)
Definition join (l : list string) : string := foldr String.append "" l.

(** [s || d] on strings: the empty string is falsy. *)
Definition orElse (s d : string) : string :=
  match s with EmptyString => d | _ => s end.

End JsString.

(** ** Files of the vault *)

(** Name of a file split at its last dot. *)
Fixpoint splitExtension (name : string) : string * option string :=
  match name with
  | EmptyString => (EmptyString, None)
  | String c r =>
      match splitExtension r with
      | (b, Some e) => (String c b, Some e)
      | (b, None) =>
          if Ascii.eqb c "."%char then (EmptyString, Some r) else (String c b, None)
      end
  end.

(** A [TFile] that sits in a folder directly under the board folder: the name
    of that folder ([file.parent.name]) and the file's own name
    ([file.name]).  Its path is [boardFolder.path/parent/name].  An item
    refers to its file by this record; the items of a board refer to
    different files. *)
Record TFile := mkTFile { file_parent : string; file_name : string }.

Global Instance TFile_eq_dec : EqDecision TFile.
Proof. solve_decision. Defined.

Definition basename (f : TFile) : string := (splitExtension (file_name f)).1.
Definition extension (f : TFile) : string := default "" (splitExtension (file_name f)).2.

(** ** JavaScript values and objects *)

#[local] Set Warnings "-register-all,-clear-no-such-hyp".

Inductive Value :=
| VNull
| VBool (b : bool)
| VNum (n : Z)
| VStr (s : string)
| VSeq (items : list Value)
| VMap (fields : list (string * Value))
| VFile (f : TFile).

(** ToBoolean *)
Definition truthy (v : Value) : bool :=
  match v with
  | VNull => false
  | VBool b => b
  | VNum n => negb (n =? 0)
  | VStr s => negb (String.eqb s "")
  | VSeq _ | VMap _ | VFile _ => true
  end.

(** ToBoolean of a property that may be absent. *)
Definition truthyProp (o : option Value) : bool :=
  match o with Some v => truthy v | None => false end.

(** [o.k || d] *)
Definition propOr (o : option Value) (d : Value) : Value :=
  match o with
  | Some v => if truthy v then v else d
  | None => d
  end.

Abbreviation Object := (gmap string Value).

(** ** Markdown texts *)

(** A node of the syntax tree: its [type] and, for a text node, its [value]. *)
Record Inline := mkInline { inline_type : string; inline_value : string }.
Record Block := mkBlock { block_type : string; block_children : list Inline }.

Inductive Text :=
| Malformed (raw : string)
| Markdown (frontmatter : Object) (ast : list Block).

(** [parseMarkdown] throws on a text it cannot parse. *)
Definition parseMarkdown (content : Text) : option (Object * list Block) :=
  match content with
  | Malformed _ => None
  | Markdown frontmatter ast => Some (frontmatter, ast)
  end.

(** ** The board in memory *)

Record ItemData := mkItemData {
  checked : bool;
  checkChar : string;
  title : option string;
  titleRaw : string;
  titleSearch : string;
  titleSearchRaw : string;
  metadata : Object;
  parent_id : Value
}.

(** The instance id of an item or lane is regenerated by every load and never
    read by the format; it is left out. *)
Record Item := mkItem { item_data : ItemData }.

Record Lane := mkLane { lane_title : string; lane_children : list Item }.

Record Board := mkBoard {
  board_children : list Lane;
  board_settings : Object;
  board_frontmatter : Object
}.

(** The file an item was loaded from or last written to:
    [item.data.metadata.file && item.data.metadata.file instanceof TFile]. *)
Definition itemFile (item : Item) : option TFile :=
  match metadata (item_data item) !! "file" with
  | Some (VFile f) => Some f
  | _ => None
  end.

Definition setItemFile (v : Value) (item : Item) : Item :=
  let d := item_data item in
  mkItem (mkItemData (checked d) (checkChar d) (title d) (titleRaw d) (titleSearch d)
            (titleSearchRaw d) (<["file" := v]> (metadata d)) (parent_id d)).

(** [newItem] *)
Definition newItem (content checkChar : string) : Item :=
  mkItem (mkItemData (String.eqb checkChar "x") checkChar None content content content ∅ VNull).

(** [updateItemContent] *)
Definition updateItemContent (item : Item) (content : string) : Item :=
  let d := item_data item in
  mkItem (mkItemData (checked d) (checkChar d) (title d) content (titleSearch d)
            (titleSearchRaw d) (metadata d) (parent_id d)).

(** ** Layout detection *)

Inductive Node :=
| NFile (content : Text)
| NFolder.

Inductive RootNode :=
| RFile (content : Text)
| RFolder (children : gmap string Node).

(** The children of the board folder, by name. *)
Abbreviation Vault := (gmap string RootNode).

Definition isTFolder (child : string * RootNode) : bool :=
  match child.2 with RFolder _ => true | RFile _ => false end.

(** [boardFolder.children] *)
Definition boardChildren (boardFolder : Vault) : list (string * RootNode) :=
  map_to_list boardFolder.

(** [hasFolderStructure]: the loop returns at the first child that is a
    folder. *)
Fixpoint hasFolderStructure_loop (children : list (string * RootNode)) : bool :=
  match children with
  | [] => false
  | child :: rest => if isTFolder child then true else hasFolderStructure_loop rest
  end.

Definition hasFolderStructure (boardFolder : Vault) : bool :=
  hasFolderStructure_loop (boardChildren boardFolder).

(** ** Hydration of one item *)

Definition headingText (b : Block) : string :=
  JsString.join
    (map (λ child, if String.eqb (inline_type child) "text" then inline_value child else "")
       (block_children b)).

(** The title as [loadItemFromFile] computes it, a JavaScript value. *)
Definition itemTitle (itemFile : TFile) (frontmatter : Object) (ast : list Block) : Value :=
  let title := propOr (frontmatter !! "title") (VStr (basename itemFile)) in
  if negb (truthyProp (frontmatter !! "title")) && (0 <? length ast)%nat then
    match ast with
    | firstChild :: _ =>
        if String.eqb (block_type firstChild) "heading"
        then VStr (headingText firstChild)
        else title
    | [] => title
    end
  else title.

Definition isCompleted (frontmatter : Object) : bool :=
  match frontmatter !! "completed" with Some (VBool true) => true | _ => false end
  || match frontmatter !! "status" with Some (VStr s) => String.eqb s "completed" | _ => false end
  || match frontmatter !! "done" with Some (VBool true) => true | _ => false end.

(** [loadItemFromFile]: [None] is the [null] of the [catch] branch; besides a
    text that does not parse, a title that is no string throws at
    [title.toLowerCase()]. *)
Definition loadItemFromFile (itemFile : TFile) (content : Text) : option Item :=
  match parseMarkdown content with
  | None => None
  | Some (frontmatter, ast) =>
      match itemTitle itemFile frontmatter ast with
      | VStr title =>
          let isCompleted := isCompleted frontmatter in
          Some (mkItem (mkItemData
                  isCompleted
                  (if isCompleted then "x" else " ")
                  (Some title)
                  title
                  (JsString.toLowerCase title)
                  (JsString.toLowerCase title)
                  (<["file" := VFile itemFile]> frontmatter)
                  (propOr (frontmatter !! "parent_id") VNull)))
      | _ => None
      end
  end.

(** ** Content of an item file *)

(** [/[^a-zA-Z0-9\s-_]/g]: the characters the replace keeps. *)
Definition keptInFileName (c : ascii) : bool :=
  JsString.isLetter c || JsString.isDigit c || JsString.isWhiteSpace c
  || Ascii.eqb c "-"%char || Ascii.eqb c "_"%char.

(** [item.data.titleRaw.replace(/[^a-zA-Z0-9\s-_]/g, '').trim()] *)
Definition sanitizedTitle (item : Item) : string :=
  JsString.trim (JsString.filter keptInFileName (titleRaw (item_data item))).

(** The object [generateItemFileContent] hands to [stringifyYaml]. *)
Definition generateItemFrontmatter (item : Item) : Object :=
  let frontmatter := metadata (item_data item) in
  let frontmatter :=
    if String.eqb (checkChar (item_data item)) "x"
    then <["completed" := VBool true]> frontmatter
    else delete "completed" frontmatter in
  let frontmatter :=
    <["parent_id" := if truthy (parent_id (item_data item))
                     then parent_id (item_data item) else VNull]> frontmatter in
  let frontmatter := <["aliases" := propOr (frontmatter !! "aliases") (VSeq [])]> frontmatter in
  let frontmatter := <["tags" := propOr (frontmatter !! "tags") (VSeq [])]> frontmatter in
  let frontmatter :=
    match itemFile item with
    | Some file => <["id" := VStr (basename file)]> frontmatter
    | None => <["id" := VStr (JsString.orElse (sanitizedTitle item) "untitled")]> frontmatter
    end in
  delete "file" frontmatter.

(** [generateItemFileContent]: a front-matter block and nothing after it. *)
Definition generateItemFileContent (item : Item) : Text :=
  Markdown (generateItemFrontmatter item) [].

(** The same text as the string the source builds, for a given YAML
    printer. *)
Definition generateItemFileContent_string (stringifyYaml : Object → string) (item : Item) : string :=
  "---" +:+ JsString.LF +:+ stringifyYaml (generateItemFrontmatter item)
  +:+ "---" +:+ JsString.LF +:+ JsString.LF.

(** ** The board descriptor *)

Section Descriptor.

(** [stringifyYaml] of the host application and [frontmatterKey] of
    [./common]. *)
Variable stringifyYaml : Object → string.
Variable frontmatterKey : string.

(** [{ [frontmatterKey]: 'board', ...frontmatter }] *)
Definition descriptorFrontmatter (frontmatter : Object) : Object :=
  frontmatter ∪ {[ frontmatterKey := VStr "board" ]}.

(** The string [saveBoardStructure] returns (it also starts the save of the
    items, [saveAllItemsToFolders] below, without waiting for it). *)
Definition saveBoardStructure (board : Board) : string :=
  let boardSettings := board_settings board in
  let frontmatter := board_frontmatter board in
  let content := "---" +:+ JsString.LF in
  let content := content +:+ stringifyYaml (descriptorFrontmatter frontmatter) in
  let content := content +:+ "---" +:+ JsString.LF +:+ JsString.LF in
  let content := content +:+ "# Board" +:+ JsString.LF +:+ JsString.LF in
  let content := content +:+ "This board uses folder structure for columns and items."
                         +:+ JsString.LF +:+ JsString.LF in
  let content := content +:+ "Each folder represents a column, and each .md file in the folder represents an item."
                         +:+ JsString.LF in
  content.

Definition boardToMd (board : Board) : string := saveBoardStructure board.

End Descriptor.

(** ** File operations and their failures *)

Inductive Op :=
| OpRead (file : TFile)
| OpCreateFolder (name : string)
| OpCreate (folder name : string)
| OpModify (file : TFile)
| OpRename (file : TFile) (folder name : string)
| OpDelete (file : TFile).

Inductive Result (A : Type) :=
| Ok (a : A)
| Throw (error : string).
Arguments Ok {A} a.
Arguments Throw {A} error.

(** The vault together with the journal of the operations attempted on it, in
    order, each with its outcome ([true]: it succeeded). *)
Record World := mkWorld { vault : Vault; journal : list (Op * bool) }.

(** A computation on a state [S] that returns or throws; the state survives a
    throw. *)
Definition M (S A : Type) : Type := S → S * Result A.

Definition ret {S A} (a : A) : M S A := λ s, (s, Ok a).
Definition throw {S A} (error : string) : M S A := λ s, (s, Throw error).
Definition bind {S A B} (m : M S A) (k : A → M S B) : M S B :=
  λ s, match m s with
       | (s', Ok a) => k a s'
       | (s', Throw e) => (s', Throw e)
       end.
Definition get {S} : M S S := λ s, (s, Ok s).
Definition update {S} (f : S → S) : M S unit := λ s, (f s, Ok tt).

(** [try { m } catch (error) { }] of the save loops, which only log. *)
Definition tryCatch {S} (m : M S unit) : S → S := λ s, (m s).1.

Notation "x <- m ;; k" := (bind m (λ x, k))
  (at level 100, m at next level, right associativity, only parsing).
Notation "m ;;; k" := (bind m (λ _, k))
  (at level 100, right associativity, only parsing).

(** [boardFolder.children.find(child => child instanceof TFolder && child.name === columnName)] *)
Definition findFolder (v : Vault) (columnName : string) : option (gmap string Node) :=
  match v !! columnName with
  | Some (RFolder children) => Some children
  | _ => None
  end.

(** [vault.getAbstractFileByPath] at the path [folder.path/name] of a folder
    directly under the board folder. *)
Definition getAbstractFileByPath (v : Vault) (folder name : string) : option Node :=
  match findFolder v folder with
  | Some children => children !! name
  | None => None
  end.

(** The file at a path, cast [as TFile]. *)
Definition fileAt (v : Vault) (folder name : string) : Value :=
  match getAbstractFileByPath v folder name with
  | Some _ => VFile (mkTFile folder name)
  | None => VNull
  end.

(** The effect of each operation on the vault when it succeeds; [None] when
    the vault refuses it: a folder or file is created only under a name that
    is free, a file is written or deleted only when it is there, and a rename
    needs its source, a free destination and the folder of the destination. *)
Definition createFolder_effect (name : string) (v : Vault) : option Vault :=
  match v !! name with
  | None => Some (<[name := RFolder ∅]> v)
  | Some _ => None
  end.

Definition create_effect (folder name : string) (content : Text) (v : Vault) : option Vault :=
  match findFolder v folder with
  | Some children =>
      match children !! name with
      | None => Some (<[folder := RFolder (<[name := NFile content]> children)]> v)
      | Some _ => None
      end
  | None => None
  end.

Definition modify_effect (file : TFile) (content : Text) (v : Vault) : option Vault :=
  match findFolder v (file_parent file) with
  | Some children =>
      match children !! file_name file with
      | Some (NFile _) =>
          Some (<[file_parent file := RFolder (<[file_name file := NFile content]> children)]> v)
      | _ => None
      end
  | None => None
  end.

Definition delete_effect (file : TFile) (v : Vault) : option Vault :=
  match findFolder v (file_parent file) with
  | Some children =>
      match children !! file_name file with
      | Some (NFile _) =>
          Some (<[file_parent file := RFolder (delete (file_name file) children)]> v)
      | _ => None
      end
  | None => None
  end.

Definition rename_effect (file : TFile) (folder name : string) (v : Vault) : option Vault :=
  match getAbstractFileByPath v (file_parent file) (file_name file),
        getAbstractFileByPath v folder name with
  | Some (NFile content), None =>
      match delete_effect file v with
      | Some v' => create_effect folder name content v'
      | None => None
      end
  | _, _ => None
  end.

Section IO.

(** The operations that fail for a reason of their own (permissions, a
    race with another writer). *)
Variable fails : Op → bool.

Definition perform (op : Op) (effect : Vault → option Vault) : M World unit :=
  λ w,
    match (if fails op then None else effect (vault w)) with
    | Some v' => (mkWorld v' (journal w ++ [(op, true)]), Ok tt)
    | None => (mkWorld (vault w) (journal w ++ [(op, false)]), Throw "file operation failed")
    end.

Definition createFolder (name : string) : M World unit :=
  perform (OpCreateFolder name) (createFolder_effect name).
Definition create (folder name : string) (content : Text) : M World unit :=
  perform (OpCreate folder name) (create_effect folder name content).
Definition modify (file : TFile) (content : Text) : M World unit :=
  perform (OpModify file) (modify_effect file content).
Definition renameFile (file : TFile) (folder name : string) : M World unit :=
  perform (OpRename file folder name) (rename_effect file folder name).
Definition delete_ (file : TFile) : M World unit :=
  perform (OpDelete file) (delete_effect file).

(** [vault.read] *)
Definition read (file : TFile) (w : World) : option Text :=
  if fails (OpRead file) then None
  else match getAbstractFileByPath (vault w) (file_parent file) (file_name file) with
       | Some (NFile content) => Some content
       | _ => None
       end.

End IO.

(** ** The save path *)

Section Save.

Variable fails : Op → bool.

(** The state of the save of one item: the item, whose back-reference the
    save assigns, and the world. *)
Definition SaveState : Type := Item * World.

Definition io {A} (m : M World A) : M SaveState A :=
  λ s, match m s.2 with (w', r) => ((s.1, w'), r) end.

Definition theItem : M SaveState Item := λ s, (s, Ok s.1).
Definition theVault : M SaveState Vault := λ s, (s, Ok (vault s.2)).

(** [item.data.metadata.file = v] *)
Definition assignFile (v : Value) : M SaveState unit :=
  update (λ s : SaveState, (setItemFile v s.1, s.2)).

(** [updateItemFileContent]; [file.path] throws when [file] is no file. *)
Definition updateItemFileContent (file : option Value) : M SaveState unit :=
  item <- theItem ;;
  let newContent := generateItemFileContent item in
  match file with
  | Some (VFile file) => io (modify fails file newContent)
  | _ => throw "TypeError"
  end.

(** Find or create the column folder. *)
Definition ensureColumnFolder (columnName : string) : M SaveState unit :=
  v <- theVault ;;
  match findFolder v columnName with
  | Some _ => ret tt
  | None => io (createFolder fails columnName)
  end.

(** The loop of [moveItemToNewColumn]: [counter] starts at 1 and the loop
    leaves with the first [baseName_counter.extension] that names nothing in
    the target folder. *)
Fixpoint moveProbe (fuel : nat) (target : gmap string Node)
    (baseName extension : string) (counter : nat) : option string :=
  match fuel with
  | O => None
  | S fuel =>
      let uniqueName := baseName +:+ "_" +:+ pretty counter +:+ "." +:+ extension in
      match target !! uniqueName with
      | Some _ => moveProbe fuel target baseName extension (S counter)
      | None => Some uniqueName
      end
  end.

(** [moveItemToNewColumn].  The file found at the new path is another
    object than [existingFile] unless [existingFile] itself is at that
    path, that is unless its folder is the target folder. *)
Definition moveItemToNewColumn (existingFile : TFile) (newColumnName : string)
    : M SaveState unit :=
  ensureColumnFolder newColumnName ;;;
  v <- theVault ;;
  let target := default ∅ (findFolder v newColumnName) in
  (match target !! file_name existingFile with
   | Some _ =>
       if bool_decide (file_parent existingFile ≠ newColumnName) then
         match moveProbe (S (size target)) target
                 (basename existingFile) (extension existingFile) 1 with
         | Some uniqueName =>
             io (renameFile fails existingFile newColumnName uniqueName) ;;;
             v <- theVault ;;
             assignFile (fileAt v newColumnName uniqueName)
         | None => throw "unreachable"
         end
       else
         io (renameFile fails existingFile newColumnName (file_name existingFile)) ;;;
         v <- theVault ;;
         assignFile (fileAt v newColumnName (file_name existingFile))
   | None =>
       io (renameFile fails existingFile newColumnName (file_name existingFile)) ;;;
       v <- theVault ;;
       assignFile (fileAt v newColumnName (file_name existingFile))
   end) ;;;
  item <- theItem ;;
  updateItemFileContent (metadata (item_data item) !! "file").

(** The loop of [createNewItemFile]: it starts from [baseName.md] and tries
    [baseName_1.md], [baseName_2.md], ... while the name is taken. *)
Fixpoint createProbe (fuel : nat) (target : gmap string Node)
    (baseName filename : string) (counter : nat) : option string :=
  match fuel with
  | O => None
  | S fuel =>
      match target !! filename with
      | Some _ =>
          createProbe fuel target baseName
            (baseName +:+ "_" +:+ pretty counter +:+ ".md") (S counter)
      | None => Some filename
      end
  end.

(** [createNewItemFile] *)
Definition createNewItemFile (columnName : string) : M SaveState unit :=
  ensureColumnFolder columnName ;;;
  v <- theVault ;;
  item <- theItem ;;
  let target := default ∅ (findFolder v columnName) in
  let sanitizedTitle := sanitizedTitle item in
  let baseName := JsString.orElse sanitizedTitle "untitled" in
  match createProbe (S (size target)) target baseName (baseName +:+ ".md") 1 with
  | Some filename =>
      let fileContent := generateItemFileContent item in
      io (create fails columnName filename fileContent) ;;;
      assignFile (VFile (mkTFile columnName filename))
  | None => throw "unreachable"
  end.

(** [saveItemToCorrectFolder] *)
Definition saveItemToCorrectFolder (newColumnName : string) : M SaveState unit :=
  item <- theItem ;;
  match itemFile item with
  | Some existingFile =>
      let currentColumnName := file_parent existingFile in
      if String.eqb currentColumnName newColumnName
      then updateItemFileContent (Some (VFile existingFile))
      else moveItemToNewColumn existingFile newColumnName
  | None => createNewItemFile newColumnName
  end.

(** The files [cleanupColumnFolder] removes from a column folder. *)
Definition filesToRemove (columnName : string) (children : gmap string Node)
    (expectedFiles : gset string) : list TFile :=
  omap (λ child : string * Node,
          match child.2 with
          | NFile _ =>
              let file := mkTFile columnName child.1 in
              if String.eqb (extension file) "md" && negb (bool_decide (child.1 ∈ expectedFiles))
              then Some file else None
          | NFolder => None
          end)
       (map_to_list children).

(** [cleanupColumnFolder] *)
Definition cleanupColumnFolder (columnName : string) (expectedFiles : gset string)
    (w : World) : World :=
  match findFolder (vault w) columnName with
  | None => w
  | Some children =>
      foldl (λ w file, tryCatch (delete_ fails file) w) w
        (filesToRemove columnName children expectedFiles)
  end.

(** The inner loop of [saveAllItemsToFolders]: the items of one lane.  It
    returns the items as the save leaves them and the names it expects in
    the column folder. *)
Fixpoint saveItems (columnName : string) (items : list Item)
    (expectedFiles : gset string) (w : World) : list Item * gset string * World :=
  match items with
  | [] => ([], expectedFiles, w)
  | item :: rest =>
      let '((item', w'), outcome) := saveItemToCorrectFolder columnName (item, w) in
      let expectedFiles' :=
        match outcome, itemFile item' with
        | Ok _, Some file => {[ file_name file ]} ∪ expectedFiles
        | _, _ => expectedFiles
        end in
      let '(rest', expectedFiles'', w'') := saveItems columnName rest expectedFiles' w' in
      (item' :: rest', expectedFiles'', w'')
  end.

(** One round of the outer loop: the items of the lane, then the cleanup
    of its folder. *)
Definition saveLane (lane : Lane) (w : World) : Lane * World :=
  let columnName := lane_title lane in
  let '(items, expectedFiles, w') := saveItems columnName (lane_children lane) ∅ w in
  (mkLane columnName items, cleanupColumnFolder columnName expectedFiles w').

Fixpoint saveLanes (lanes : list Lane) (w : World) : list Lane * World :=
  match lanes with
  | [] => ([], w)
  | lane :: rest =>
      let '(lane', w') := saveLane lane w in
      let '(rest', w'') := saveLanes rest w' in
      (lane' :: rest', w'')
  end.

(** [saveAllItemsToFolders]: the board as the save leaves it in memory and
    the world it leaves on disk.  Nothing is thrown: every item runs under
    its own [try]. *)
Definition saveAllItemsToFolders (board : Board) (w : World) : Board * World :=
  let '(lanes, w') := saveLanes (board_children board) w in
  (mkBoard lanes (board_settings board) (board_frontmatter board), w').

End Save.

(** ** The save of a single item *)

(** [filename.replace(/\.md$/, '')] *)
Fixpoint stripMdSuffix (filename : string) : string :=
  match filename with
  | EmptyString => EmptyString
  | String c rest =>
      if String.eqb filename ".md" then EmptyString else String c (stripMdSuffix rest)
  end.

(** The name [saveItem] writes to: the name of the file of the item, or the
    sanitized title with [.md]. *)
Definition saveItemFilename (item : Item) : string :=
  match itemFile item with
  | Some file => file_name file
  | None => JsString.orElse (sanitizedTitle item) "untitled" +:+ ".md"
  end.

(** The object [saveItem] hands to [stringifyYaml]. *)
Definition saveItemFrontmatter (item : Item) : Object :=
  let frontmatter := metadata (item_data item) in
  let frontmatter :=
    if String.eqb (checkChar (item_data item)) "x"
    then <["completed" := VBool true]> frontmatter
    else frontmatter in
  let frontmatter :=
    <["parent_id" := if truthy (parent_id (item_data item))
                     then parent_id (item_data item) else VNull]> frontmatter in
  let frontmatter := <["aliases" := propOr (frontmatter !! "aliases") (VSeq [])]> frontmatter in
  let frontmatter := <["tags" := propOr (frontmatter !! "tags") (VSeq [])]> frontmatter in
  let filenameWithoutExt := stripMdSuffix (saveItemFilename item) in
  let frontmatter := <["id" := VStr filenameWithoutExt]> frontmatter in
  delete "file" frontmatter.

Section SaveItem.

Variable fails : Op → bool.

(** [saveItem]: the public method that writes one item into a column; an
    error of the write is logged and thrown again. *)
Definition saveItem (item : Item) (columnName : string) : M World unit :=
  w <- get ;;
  (match findFolder (vault w) columnName with
   | Some _ => ret tt
   | None => createFolder fails columnName
   end) ;;;
  let filename := saveItemFilename item in
  let fileContent := Markdown (saveItemFrontmatter item) [] in
  w <- get ;;
  match getAbstractFileByPath (vault w) columnName filename with
  | Some (NFile _) => modify fails (mkTFile columnName filename) fileContent
  | _ => create fails columnName filename fileContent
  end.

End SaveItem.

(** ** The load path *)

(** [Array.prototype.sort(compare)]: a stable sort; with a compare function
    that is a total preorder its result is the one of the insertion sort. *)
Fixpoint insertSorted {A} (compare : A → A → Z) (x : A) (l : list A) : list A :=
  match l with
  | [] => [x]
  | y :: rest =>
      if compare x y <=? 0 then x :: y :: rest else y :: insertSorted compare x rest
  end.

Definition sort {A} (compare : A → A → Z) (l : list A) : list A :=
  foldr (insertSorted compare) [] l.

Section Load.

Variable fails : Op → bool.

(** [String.prototype.localeCompare] of the host, and the settings the
    parser computes from the text of the descriptor. *)
Variable localeCompare : string → string → Z.
Variable parseSettings : Text → Object.

(** The [.md] files directly in a column folder. *)
Definition itemFiles (columnName : string) (children : gmap string Node) : list TFile :=
  omap (λ child : string * Node,
          match child.2 with
          | NFile _ =>
              let file := mkTFile columnName child.1 in
              if String.eqb (extension file) "md" then Some file else None
          | NFolder => None
          end)
       (map_to_list children).

(** The body of the loop of [loadColumn] for one file; [None] when the read
    or the hydration fails, and the file is skipped. *)
Definition loadItem (w : World) (itemFile : TFile) : option Item :=
  match read fails itemFile w with
  | Some content => loadItemFromFile itemFile content
  | None => None
  end.

(** [loadColumn] *)
Definition loadColumn (w : World) (columnName : string) (children : gmap string Node) : Lane :=
  let columnTitle := columnName in
  let items := omap (loadItem w) (itemFiles columnName children) in
  mkLane columnTitle
    (sort (λ a b, localeCompare (titleRaw (item_data a)) (titleRaw (item_data b))) items).

(** The folders directly under the board folder. *)
Definition columnFolders (v : Vault) : list (string * gmap string Node) :=
  omap (λ child : string * RootNode,
          match child.2 with
          | RFolder children => Some (child.1, children)
          | RFile _ => None
          end)
       (boardChildren v).

(** [loadFromFolderStructure], up to the board it hands to [hydrateBoard];
    [None] when the descriptor does not parse. *)
Definition loadFromFolderStructure (w : World) (boardMd : Text) : option Board :=
  match parseMarkdown boardMd with
  | None => None
  | Some (frontmatter, _) =>
      let lanes := map (λ c : string * gmap string Node, loadColumn w c.1 c.2)
                     (columnFolders (vault w)) in
      Some (mkBoard
              (sort (λ a b, localeCompare (lane_title a) (lane_title b)) lanes)
              (parseSettings boardMd) frontmatter)
  end.

(** [loadBoardAsync]: [None] is the rejection. *)
Definition loadBoardAsync (w : World) (md : Text) : option Board :=
  if hasFolderStructure (vault w) then loadFromFolderStructure w md else None.

End Load.

(** The comparison of strings by code units, the collation of the C locale;
    it serves as [localeCompare] in the examples. *)
Definition codeUnitCompare (a b : string) : Z :=
  match String.compare a b with Lt => -1 | Eq => 0 | Gt => 1 end.

(** No operation fails. *)
Definition noFault : Op → bool := λ _, false.

(** ** Words of the specification, for comparison *)

(** The first heading block of a body, wherever it stands. *)
Definition firstHeading (ast : list Block) : option Block :=
  List.find (λ b, String.eqb (block_type b) "heading") ast.

(** The title by the precedence "explicit front-matter [title] field, else
    the text of the first heading block in the parsed body, else the file's
    base name". *)
Definition titleAsSpecified (itemFile : TFile) (frontmatter : Object) (ast : list Block) : Value :=
  match frontmatter !! "title" with
  | Some title => title
  | None =>
      match firstHeading ast with
      | Some heading => VStr (headingText heading)
      | None => VStr (basename itemFile)
      end
  end.

(** The precedence the code follows: a front-matter [title] that is a
    non-empty string, else the text of the first block of the body when that
    block is a heading, else the base name. *)
Definition leadingHeading (ast : list Block) : option Block :=
  match ast with
  | firstChild :: _ =>
      if String.eqb (block_type firstChild) "heading" then Some firstChild else None
  | [] => None
  end.

Definition derivedTitle (itemFile : TFile) (frontmatter : Object) (ast : list Block) : string :=
  let fallback :=
    match leadingHeading ast with
    | Some heading => headingText heading
    | None => basename itemFile
    end in
  match frontmatter !! "title" with
  | Some (VStr title) => JsString.orElse title fallback
  | _ => fallback
  end.

(** The front-matter [title] is absent, falsy or a string. *)
Definition titleIsText (frontmatter : Object) : Prop :=
  ∀ v, frontmatter !! "title" = Some v → truthy v = true → ∃ s, v = VStr s.

(** "every character outside [[A-Za-z0-9 _-]] stripped": the characters that
    class keeps. *)
Definition keptAsSpecified (c : ascii) : bool :=
  JsString.isLetter c || JsString.isDigit c || Ascii.eqb c " "%char
  || Ascii.eqb c "_"%char || Ascii.eqb c "-"%char.

Definition fileNameAsSpecified (title : string) : string :=
  JsString.orElse (JsString.trim (JsString.filter keptAsSpecified title)) "untitled" +:+ ".md".

(** The names [createNewItemFile] tries, in order: [baseName.md],
    [baseName_1.md], [baseName_2.md], ... *)
Definition candidate (baseName : string) (k : nat) : string :=
  match k with
  | O => baseName +:+ ".md"
  | S _ => baseName +:+ "_" +:+ pretty k +:+ ".md"
  end.

(** Once a file has been deleted, nothing is created, written or renamed any
    more: the cleanup comes strictly after the writes of the items. *)
Definition isDelete (entry : Op * bool) : bool :=
  match entry.1 with OpDelete _ => true | _ => false end.

Fixpoint cleanupAfterAllWrites (journal : list (Op * bool)) : bool :=
  match journal with
  | [] => true
  | entry :: rest =>
      if isDelete entry then forallb isDelete rest else cleanupAfterAllWrites rest
  end.

(** The comparison of titles as an order. *)
Definition precedes (compare : string → string → Z) (a b : string) : Prop :=
  compare a b <= 0.

Definition laneTitles (board : Board) : list string :=
  map lane_title (board_children board).
Definition itemTitles (lane : Lane) : list string :=
  map (λ item, titleRaw (item_data item)) (lane_children lane).

(** ** The earlier revision of the detection

    The repository keeps an earlier revision of the format in which a folder
    counts as a column only when it holds a [.md] file. *)
Module Earlier.

Definition hasMarkdownFiles (name : string) (children : gmap string Node) : bool :=
  existsb (λ f : string * Node,
             match f.2 with
             | NFile _ => String.eqb (extension (mkTFile name f.1)) "md"
             | NFolder => false
             end)
          (map_to_list children).

Fixpoint hasFolderStructure_loop (children : list (string * RootNode)) : bool :=
  match children with
  | [] => false
  | child :: rest =>
      match child.2 with
      | RFolder grandchildren =>
          if hasMarkdownFiles child.1 grandchildren then true
          else hasFolderStructure_loop rest
      | RFile _ => hasFolderStructure_loop rest
      end
  end.

Definition hasFolderStructure (boardFolder : Vault) : bool :=
  hasFolderStructure_loop (boardChildren boardFolder).

End Earlier.

(** ** Boards and vaults of the examples *)

Module Scenario.

Definition descriptor : Text := Markdown ∅ [].

Definition loadBoard (v : Vault) : option Board :=
  loadFromFolderStructure noFault codeUnitCompare (λ _, ∅) (mkWorld v []) descriptor.

Definition save (fails : Op → bool) (board : Board) (v : Vault) : Board * World :=
  saveAllItemsToFolders fails board (mkWorld v []).

(** The item a load makes of a file with the given front matter and no
    body. *)
Definition hydrated (folder name : string) (frontmatter : Object) : Item :=
  default (newItem "" " ")
    (loadItemFromFile (mkTFile folder name) (Markdown frontmatter [])).

(** A title with a TAB inside. *)
Definition tabbedTitle : string := "a" +:+ String "009"%char "b".

(** A task file as the README shows it, with a few more fields and a
    body. *)
Definition taskFrontmatter : Object :=
  {[ "completed" := VBool false; "file" := VStr "notes.pdf"; "tags" := VNull;
     "parent_id" := VStr ""; "due" := VStr "2024-01-01"; "id" := VStr "old" ]}.
Definition taskBody : list Block :=
  [mkBlock "paragraph" [mkInline "text" "Task description here..."]].
Definition vaultRoundTrip : Vault :=
  {[ "Todo" := RFolder {[ "task1.md" := NFile (Markdown taskFrontmatter taskBody) ]} ]}.

(** Column [A] with two files; the file [x.md] cannot be written. *)
Definition vaultReadOnly : Vault :=
  {[ "A" := RFolder {[ "x.md" := NFile (Markdown {[ "note" := VStr "keep me" ]} []);
                       "y.md" := NFile (Markdown ∅ []) ]} ]}.
Definition readOnlyX (op : Op) : bool :=
  match op with
  | OpModify file => bool_decide (file = mkTFile "A" "x.md")
  | _ => false
  end.

(** Columns [A] and [B], each with a file [t.md]; in memory the item of
    [A/t.md] has been dragged to the end of column [B]. *)
Definition vaultMove : Vault :=
  {[ "A" := RFolder {[ "t.md" := NFile (Markdown {[ "note" := VStr "moved" ]} []) ]};
     "B" := RFolder {[ "t.md" := NFile (Markdown {[ "note" := VStr "other" ]} []) ]} ]}.
Definition movedItem : Item := hydrated "A" "t.md" {[ "note" := VStr "moved" ]}.
Definition otherItem : Item := hydrated "B" "t.md" {[ "note" := VStr "other" ]}.
Definition boardLoaded : Board :=
  mkBoard [mkLane "A" [movedItem]; mkLane "B" [otherItem]] ∅ ∅.
Definition boardDragged : Board :=
  mkBoard [mkLane "A" []; mkLane "B" [otherItem; movedItem]] ∅ ∅.

(** The same with an empty column [B]. *)
Definition vaultMoveEmpty : Vault :=
  {[ "A" := RFolder {[ "t.md" := NFile (Markdown {[ "note" := VStr "moved" ]} []) ]};
     "B" := RFolder ∅ ]}.
Definition boardDraggedEmpty : Board :=
  mkBoard [mkLane "A" []; mkLane "B" [movedItem]] ∅ ∅.

(** Column [Todo] holds [Task.md]; a new item titled [Task] is added to
    it. *)
Definition vaultTask : Vault :=
  {[ "Todo" := RFolder {[ "Task.md" := NFile (Markdown ∅ []) ]} ]}.
Definition boardTask : Board :=
  mkBoard [mkLane "Todo" [hydrated "Todo" "Task.md" ∅; newItem "Task" " "]] ∅ ∅.

(** A new item whose title has a TAB, saved into a column without folder. *)
Definition boardTabbed : Board :=
  mkBoard [mkLane "Todo" [newItem tabbedTitle " "]] ∅ ∅.

(** Columns [Done] and [Todo]; a column [Backlog] with a new item is added
    after them. *)
Definition vaultColumns : Vault :=
  {[ "Done" := RFolder {[ "d.md" := NFile (Markdown ∅ []) ]};
     "Todo" := RFolder {[ "t.md" := NFile (Markdown ∅ []) ]} ]}.
Definition boardWithBacklog : Board :=
  mkBoard [mkLane "Done" [hydrated "Done" "d.md" ∅];
           mkLane "Todo" [hydrated "Todo" "t.md" ∅];
           mkLane "Backlog" [newItem "zeta" " "; newItem "alpha" " "]] ∅ ∅.

(** A task file whose title is a number. *)
Definition vaultNumericTitle : Vault :=
  {[ "Todo" := RFolder {[ "n.md" := NFile (Markdown {[ "title" := VNum 2024 ]} []) ]} ]}.

(** Item files for the derivation of the title. *)
Definition headingBar : Block := mkBlock "heading" [mkInline "text" "Bar"].
Definition introThenHeading : list Block :=
  [mkBlock "paragraph" [mkInline "text" "intro"]; headingBar].

End Scenario.

(** ** Auxiliary notions of the proofs *)

(** Two items that differ at most in the file back-reference. *)
Definition sameButFile (a b : Item) : Prop :=
  checked (item_data a) = checked (item_data b)
  ∧ checkChar (item_data a) = checkChar (item_data b)
  ∧ title (item_data a) = title (item_data b)
  ∧ titleRaw (item_data a) = titleRaw (item_data b)
  ∧ titleSearch (item_data a) = titleSearch (item_data b)
  ∧ titleSearchRaw (item_data a) = titleSearchRaw (item_data b)
  ∧ parent_id (item_data a) = parent_id (item_data b)
  ∧ ∀ key, key ≠ "file" → metadata (item_data a) !! key = metadata (item_data b) !! key.

(** A computation of the save keeps the item up to its back-reference. *)
Definition keepsItem {A} (m : M SaveState A) : Prop :=
  ∀ s, sameButFile s.1 (m s).1.1.

(** The world once the folder of a column is there. *)
Definition withColumnFolder (columnName : string) (w : World) : World :=
  match findFolder (vault w) columnName with
  | Some _ => w
  | None => mkWorld (<[columnName := RFolder ∅]> (vault w))
              (journal w ++ [(OpCreateFolder columnName, true)])
  end.

(** A [.md] file directly in a column folder. *)
Definition isMarkdownFile (folder name : string) (node : Node) : bool :=
  match node with
  | NFile _ => String.eqb (extension (mkTFile folder name)) "md"
  | NFolder => false
  end.

(** What the save of a board just loaded leaves of a child of a column folder. *)
Definition rewrittenNode (folder name : string) (node : Node) : option Node :=
  match node with
  | NFile content =>
      if String.eqb (extension (mkTFile folder name)) "md" then
        match loadItemFromFile (mkTFile folder name) content with
        | Some item => Some (NFile (generateItemFileContent item))
        | None => None
        end
      else Some node
  | NFolder => Some node
  end.

Definition rewrittenFolder (folder : string) (children : gmap string Node) : gmap string Node :=
  map_imap (rewrittenNode folder) children.

Definition rewrittenVault (v : Vault) : Vault :=
  map_imap (λ name child,
              Some match child with
                   | RFile content => RFile content
                   | RFolder children => RFolder (rewrittenFolder name children)
                   end) v.

(** The name of the file of an item. *)
Definition nameOf (item : Item) : string :=
  match itemFile item with Some file => file_name file | None => "" end.

(** The folder after the files of the items have been written. *)
Definition written (items : list Item) (children : gmap string Node) : gmap string Node :=
  foldl (λ children item, <[nameOf item := NFile (generateItemFileContent item)]> children)
    children items.

(** An item whose file is a file of the folder. *)
Definition backedIn (folder : string) (children : gmap string Node) (item : Item) : Prop :=
  ∃ name content,
    itemFile item = Some (mkTFile folder name) ∧ children !! name = Some (NFile content).

(** The folder after the files have been deleted. *)
Definition removed (files : list TFile) (children : gmap string Node) : gmap string Node :=
  foldl (λ children file, delete (file_name file) children) children files.

(** The item a load makes of a file of the folder. *)
Definition hydratedFrom (folder : string) (children : gmap string Node) (item : Item) : Prop :=
  ∃ name content,
    children !! name = Some (NFile content)
    ∧ extension (mkTFile folder name) = "md"
    ∧ loadItemFromFile (mkTFile folder name) content = Some item.

(** The names [moveItemToNewColumn] tries when the name of the file is taken
    in the target folder: [baseName_1.extension], [baseName_2.extension], ... *)
Definition moveCandidate (baseName extension : string) (k : nat) : string :=
  baseName +:+ "_" +:+ pretty k +:+ "." +:+ extension.

(** The name under which a file arrives in the target folder. *)
Definition arrivesAs (target : gmap string Node) (file : TFile) (newName : string) : Prop :=
  match target !! file_name file with
  | None => newName = file_name file
  | Some _ =>
      ∃ k, (1 ≤ k)%nat
           ∧ newName = moveCandidate (basename file) (extension file) k
           ∧ ∀ i, (1 ≤ i < k)%nat →
                  is_Some (target !! moveCandidate (basename file) (extension file) i)
  end.




(** The journal of [w'] continues the journal of [w] by [n] entries or
    more. *)
Definition journalGrows (n : nat) (w w' : World) : Prop :=
  ∃ entries : list (Op * bool),
    journal w' = (journal w ++ entries)%list ∧ (n ≤ length entries)%nat.

(** A computation of the save only adds to the journal. *)
Definition logs {A} (m : M SaveState A) : Prop :=
  ∀ s, journalGrows 0 s.2 (m s).1.2.

(** The number of items of a board. *)
Definition itemCount (lanes : list Lane) : nat :=
  sum_list (map (λ lane, length (lane_children lane)) lanes).

(** A string that does not start with white space. *)
Definition startsWithoutSpace (s : string) : Prop :=
  match s with
  | EmptyString => True
  | String c _ => JsString.isWhiteSpace c = false
  end.

(** * Properties *)

(** ** Strings *)

Lemma append_assoc (a b c : string) : (a +:+ b) +:+ c = a +:+ (b +:+ c).
Proof.
  induction a as [|x a IH]; [reflexivity |].
  change (String x ((a +:+ b) +:+ c) = String x (a +:+ (b +:+ c))). by rewrite IH.
Qed.

(** ** Layout detection *)

Lemma hasFolderStructure_loop_true (children : list (string * RootNode)) :
  hasFolderStructure_loop children = true ↔ ∃ child, child ∈ children ∧ isTFolder child = true.
Proof.
  induction children as [|child rest IH]; simpl.
  - split; [done | intros (? & Hin & _); by apply elem_of_nil in Hin].
  - destruct (isTFolder child) eqn:Hchild.
    + split; [intros _; exists child; split; [left | done] | done].
    + rewrite IH. split.
      * intros (c & Hin & Hc). exists c. split; [by right | done].
      * intros (c & Hin & Hc). apply elem_of_cons in Hin as [-> | Hin]; [congruence |].
        by exists c.
Qed.

(** C6.  The folder layout is detected exactly when the board folder has a
    direct child that is a folder, whatever that folder holds (an empty
    folder counts); the detection is negative, and nothing is thrown, exactly
    when every child is a file. *)
Theorem hasFolderStructure_iff_subfolder (boardFolder : Vault) :
  (hasFolderStructure boardFolder = true
     ↔ ∃ name children, boardFolder !! name = Some (RFolder children))
  ∧ (hasFolderStructure boardFolder = false
     ↔ ∀ name child, boardFolder !! name = Some child → ∃ content, child = RFile content).
Proof.
  assert (Htrue : hasFolderStructure boardFolder = true
                  ↔ ∃ name children, boardFolder !! name = Some (RFolder children)).
  { unfold hasFolderStructure, boardChildren. rewrite hasFolderStructure_loop_true. split.
    - intros ([name child] & Hin & Hfolder). apply elem_of_map_to_list in Hin.
      destruct child as [|children]; [discriminate |]. by exists name, children.
    - intros (name & children & Hlookup). exists (name, RFolder children).
      split; [by apply elem_of_map_to_list | done]. }
  split; [exact Htrue |].
  split.
  - intros Hfalse name child Hlookup. destruct child as [content|children]; [by exists content |].
    assert (hasFolderStructure boardFolder = true) by (apply Htrue; eauto). congruence.
  - intros Hfiles. apply not_true_is_false. intros Hhas.
    apply Htrue in Hhas as (name & children & Hlookup).
    apply Hfiles in Hlookup as (content & ?). discriminate.
Qed.

(** A board folder whose only child is an empty folder is detected; the
    earlier revision of the detection rejected it. *)
Lemma empty_column_detected :
  hasFolderStructure {[ "Todo" := RFolder ∅ ]} = true
  ∧ Earlier.hasFolderStructure {[ "Todo" := RFolder ∅ ]} = false.
Proof. split; reflexivity. Qed.

(** ** The board descriptor *)

(** C10.  The text [boardToMd] returns is a fixed template around the front
    matter of the board, in which the plugin key is always set; the settings,
    the columns and the items of the board do not enter it. *)
Theorem boardToMd_template (stringifyYaml : Object → string) (frontmatterKey : string)
    (board : Board) (children : list Lane) (settings : Object) :
  boardToMd stringifyYaml frontmatterKey board
  = "---" +:+ JsString.LF
    +:+ stringifyYaml (descriptorFrontmatter frontmatterKey (board_frontmatter board))
    +:+ "---" +:+ JsString.LF +:+ JsString.LF
    +:+ "# Board" +:+ JsString.LF +:+ JsString.LF
    +:+ "This board uses folder structure for columns and items." +:+ JsString.LF +:+ JsString.LF
    +:+ "Each folder represents a column, and each .md file in the folder represents an item."
    +:+ JsString.LF
  ∧ is_Some (descriptorFrontmatter frontmatterKey (board_frontmatter board) !! frontmatterKey)
  ∧ (∀ key, key ≠ frontmatterKey →
       descriptorFrontmatter frontmatterKey (board_frontmatter board) !! key
       = board_frontmatter board !! key)
  ∧ boardToMd stringifyYaml frontmatterKey (mkBoard children settings (board_frontmatter board))
    = boardToMd stringifyYaml frontmatterKey board.
Proof.
  split; [| split; [| split]].
  - unfold boardToMd, saveBoardStructure.
    rewrite !append_assoc. reflexivity.
  - unfold descriptorFrontmatter.
    destruct (board_frontmatter board !! frontmatterKey) as [v|] eqn:Hkey.
    + exists v. by apply lookup_union_Some_l.
    + exists (VStr "board"). rewrite lookup_union_r by done. by rewrite lookup_singleton_eq.
  - intros key Hne. unfold descriptorFrontmatter.
    rewrite lookup_union, lookup_singleton_ne by done.
    by destruct (board_frontmatter board !! key).
  - reflexivity.
Qed.

(** ** Hydration of one item *)

Lemma orElse_nonempty (s d : string) : String.eqb s "" = false → JsString.orElse s d = s.
Proof. by destruct s. Qed.

Lemma itemTitle_fallback (itemFile : TFile) (frontmatter : Object) (ast : list Block) :
  truthyProp (frontmatter !! "title") = false →
  itemTitle itemFile frontmatter ast
  = VStr (match leadingHeading ast with
          | Some heading => headingText heading
          | None => basename itemFile
          end).
Proof.
  intros Hfalsy. unfold itemTitle. rewrite Hfalsy. simpl.
  assert (Hor : propOr (frontmatter !! "title") (VStr (basename itemFile))
                = VStr (basename itemFile)).
  { unfold propOr, truthyProp in *. destruct (frontmatter !! "title"); [| done].
    by rewrite Hfalsy. }
  rewrite Hor. destruct ast as [|firstChild rest]; simpl; [done |].
  by destruct (String.eqb (block_type firstChild) "heading").
Qed.

Lemma itemTitle_derived (itemFile : TFile) (frontmatter : Object) (ast : list Block) :
  titleIsText frontmatter →
  itemTitle itemFile frontmatter ast = VStr (derivedTitle itemFile frontmatter ast).
Proof.
  intros Htext. destruct (truthyProp (frontmatter !! "title")) eqn:Htruthy.
  - unfold itemTitle, derivedTitle. rewrite Htruthy. simpl.
    unfold truthyProp, propOr in *. destruct (frontmatter !! "title") as [v|] eqn:Hv; [| done].
    destruct (Htext v Hv Htruthy) as [s ->]. rewrite Htruthy.
    simpl in Htruthy. apply negb_true_iff in Htruthy. by rewrite orElse_nonempty.
  - rewrite itemTitle_fallback by done. unfold derivedTitle.
    unfold truthyProp in Htruthy.
    destruct (frontmatter !! "title") as [[| | |s| | |]|]; try done.
    simpl in Htruthy. apply negb_false_iff, String.eqb_eq in Htruthy. by subst s.
Qed.

Lemma isCompleted_iff (frontmatter : Object) :
  isCompleted frontmatter = true
  ↔ frontmatter !! "completed" = Some (VBool true)
    ∨ frontmatter !! "status" = Some (VStr "completed")
    ∨ frontmatter !! "done" = Some (VBool true).
Proof.
  unfold isCompleted. rewrite !orb_true_iff. split.
  - intros [[H | H] | H].
    + left. by destruct (frontmatter !! "completed") as [[|[]| | | | |]|].
    + right; left. destruct (frontmatter !! "status") as [[| | |s| | |]|]; try done.
      apply String.eqb_eq in H. by subst s.
    + right; right. by destruct (frontmatter !! "done") as [[|[]| | | | |]|].
  - intros [H | [H | H]]; rewrite H; auto.
Qed.

(** C7, as the code has it.  A parsed item file whose front-matter [title] is
    absent, falsy or a string hydrates into an item.  Its title is the
    front-matter [title] when that is a non-empty string, else the text of
    the first block of the body when that block is a heading, else the base
    name of the file.  It is checked exactly when [completed] is [true],
    [status] is the string [completed] or [done] is [true], and its check
    marker is [x] when checked and a space otherwise. *)
Theorem loadItemFromFile_title_and_checked
    (itemFile : TFile) (frontmatter : Object) (ast : list Block) :
  titleIsText frontmatter →
  ∃ item,
    loadItemFromFile itemFile (Markdown frontmatter ast) = Some item
    ∧ titleRaw (item_data item) = derivedTitle itemFile frontmatter ast
    ∧ (checked (item_data item) = true
       ↔ frontmatter !! "completed" = Some (VBool true)
         ∨ frontmatter !! "status" = Some (VStr "completed")
         ∨ frontmatter !! "done" = Some (VBool true))
    ∧ checkChar (item_data item) = (if checked (item_data item) then "x" else " ").
Proof.
  intros Htext. unfold loadItemFromFile. simpl.
  rewrite itemTitle_derived by done.
  eexists. split; [reflexivity |]. simpl.
  split; [done |]. split; [apply isCompleted_iff | done].
Qed.

Lemma loadItemFromFile_title_and_checked_witness :
  titleIsText {[ "status" := VStr "completed" ]}
  ∧ ∃ item,
      loadItemFromFile (mkTFile "Todo" "t.md")
        (Markdown {[ "status" := VStr "completed" ]} [Scenario.headingBar]) = Some item
      ∧ titleRaw (item_data item) = "Bar"
      ∧ checked (item_data item) = true.
Proof.
  assert (Htext : titleIsText {[ "status" := VStr "completed" ]}).
  { intros v Hv. vm_compute in Hv. discriminate. }
  split; [exact Htext |].
  destruct (loadItemFromFile_title_and_checked (mkTFile "Todo" "t.md")
              {[ "status" := VStr "completed" ]} [Scenario.headingBar] Htext)
    as (item & Hload & Htitle & Hchecked & _).
  exists item. split; [exact Hload |]. split; [exact Htitle |].
  apply Hchecked. right; left. reflexivity.
Defined.

(** A front-matter [title] that is truthy and no string makes the hydration
    fail: the file yields no item. *)
Lemma loadItemFromFile_title_not_text
    (itemFile : TFile) (frontmatter : Object) (ast : list Block) (v : Value) :
  frontmatter !! "title" = Some v → truthy v = true → (∀ s, v ≠ VStr s) →
  loadItemFromFile itemFile (Markdown frontmatter ast) = None.
Proof.
  intros Hv Htruthy Hnot. unfold loadItemFromFile, itemTitle. simpl.
  unfold truthyProp, propOr. rewrite Hv, Htruthy. simpl.
  destruct v; try done. by destruct (Hnot s).
Qed.

(** C7, as stated, fails on two files named [t.md] without checked state: a
    body that opens with a paragraph and has the heading [Bar] after it, and a
    front matter with the explicit title [""].  The code gives both the title
    [t], the stated precedence gives [Bar] and [""]. *)
Lemma title_precedence_counterexample :
  (titleRaw ∘ item_data <$> loadItemFromFile (mkTFile "Todo" "t.md")
                               (Markdown ∅ Scenario.introThenHeading) = Some "t"
   ∧ titleAsSpecified (mkTFile "Todo" "t.md") ∅ Scenario.introThenHeading = VStr "Bar")
  ∧ (titleRaw ∘ item_data <$> loadItemFromFile (mkTFile "Todo" "t.md")
                                 (Markdown {[ "title" := VStr "" ]} []) = Some "t"
     ∧ titleAsSpecified (mkTFile "Todo" "t.md") {[ "title" := VStr "" ]} [] = VStr "").
Proof. repeat split; reflexivity. Qed.

(** ** The save on the examples *)

(** The boards of the examples are the boards a load makes of their vaults. *)
Lemma scenario_boards_loaded :
  Scenario.loadBoard Scenario.vaultMove = Some Scenario.boardLoaded
  ∧ Scenario.loadBoard Scenario.vaultReadOnly
    = Some (mkBoard [mkLane "A" [Scenario.hydrated "A" "x.md" {[ "note" := VStr "keep me" ]};
                                 Scenario.hydrated "A" "y.md" ∅]] ∅ ∅).
Proof. split; vm_compute; reflexivity. Qed.

(** C2 on the code.  The file [A/x.md] cannot be written.  The save catches
    the failure and goes on to [A/y.md], but the failed item never enters the
    expected names, and the cleanup of column [A] deletes [A/x.md]. *)
Theorem failed_item_file_deleted :
  ∃ board,
    Scenario.loadBoard Scenario.vaultReadOnly = Some board
    ∧ journal (Scenario.save Scenario.readOnlyX board Scenario.vaultReadOnly).2
      = [(OpModify (mkTFile "A" "x.md"), false);
         (OpModify (mkTFile "A" "y.md"), true);
         (OpDelete (mkTFile "A" "x.md"), true)]
    ∧ getAbstractFileByPath Scenario.vaultReadOnly "A" "x.md"
      = Some (NFile (Markdown {[ "note" := VStr "keep me" ]} []))
    ∧ getAbstractFileByPath
        (vault (Scenario.save Scenario.readOnlyX board Scenario.vaultReadOnly).2) "A" "x.md"
      = None.
Proof. eexists. split; [vm_compute; reflexivity |]. repeat split; vm_compute; reflexivity. Qed.

(** C3 on the code.  The item of [A/t.md] has been dragged to column [B].
    The cleanup of column [A] runs before the items of column [B] are saved:
    it deletes [A/t.md], the move that comes after it fails, and the file is
    in neither folder. *)
Theorem cleanup_before_later_columns :
  journal (Scenario.save noFault Scenario.boardDraggedEmpty Scenario.vaultMoveEmpty).2
  = [(OpDelete (mkTFile "A" "t.md"), true);
     (OpRename (mkTFile "A" "t.md") "B" "t.md", false)]
  ∧ cleanupAfterAllWrites
      (journal (Scenario.save noFault Scenario.boardDraggedEmpty Scenario.vaultMoveEmpty).2)
    = false
  ∧ findFolder (vault (Scenario.save noFault Scenario.boardDraggedEmpty Scenario.vaultMoveEmpty).2) "A"
    = Some ∅
  ∧ findFolder (vault (Scenario.save noFault Scenario.boardDraggedEmpty Scenario.vaultMoveEmpty).2) "B"
    = Some ∅.
Proof. repeat split; vm_compute; reflexivity. Qed.

(** C4 on the code.  [A/t.md] is dragged to column [B], which holds another
    item's [t.md].  After the save there is no [B/t_1.md]: the cleanup of
    column [A] has deleted [A/t.md] before the move, and the rename to
    [B/t_1.md] fails. *)
Theorem dragged_file_not_moved :
  journal (Scenario.save noFault Scenario.boardDragged Scenario.vaultMove).2
  = [(OpDelete (mkTFile "A" "t.md"), true);
     (OpModify (mkTFile "B" "t.md"), true);
     (OpRename (mkTFile "A" "t.md") "B" "t_1.md", false)]
  ∧ getAbstractFileByPath
      (vault (Scenario.save noFault Scenario.boardDragged Scenario.vaultMove).2) "B" "t_1.md"
    = None
  ∧ getAbstractFileByPath
      (vault (Scenario.save noFault Scenario.boardDragged Scenario.vaultMove).2) "A" "t.md"
    = None
  ∧ dom <$> findFolder (vault (Scenario.save noFault Scenario.boardDragged Scenario.vaultMove).2) "B"
    = Some {[ "t.md" ]}.
Proof. repeat split; vm_compute; reflexivity. Qed.

(** C5 on the code.  Column [Todo] holds [Task.md] and gets a new item titled
    [Task].  The save writes the new item to [Todo/Task_1.md], and the [id]
    in that file is [Task], the sanitized title, not the base name
    [Task_1]. *)
Theorem new_file_id_is_not_base_name :
  journal (Scenario.save noFault Scenario.boardTask Scenario.vaultTask).2
  = [(OpModify (mkTFile "Todo" "Task.md"), true); (OpCreate "Todo" "Task_1.md", true)]
  ∧ (∃ frontmatter,
       getAbstractFileByPath
         (vault (Scenario.save noFault Scenario.boardTask Scenario.vaultTask).2) "Todo" "Task_1.md"
       = Some (NFile (Markdown frontmatter []))
       ∧ frontmatter !! "id" = Some (VStr "Task"))
  ∧ basename (mkTFile "Todo" "Task_1.md") = "Task_1".
Proof.
  split; [vm_compute; reflexivity |]. split; [| reflexivity].
  eexists. split; vm_compute; reflexivity.
Qed.

(** ** Sorting *)

Section SortFacts.

Context {A : Type} (compare : A → A → Z).
Hypothesis compare_total : ∀ x y, compare x y <= 0 ∨ compare y x <= 0.
Hypothesis compare_trans : ∀ x y z, compare x y <= 0 → compare y z <= 0 → compare x z <= 0.

Lemma insertSorted_Permutation (x : A) (l : list A) : insertSorted compare x l ≡ₚ x :: l.
Proof.
  induction l as [|y rest IH]; simpl; [done |].
  destruct (compare x y <=? 0); [done |].
  rewrite IH. apply Permutation_swap.
Qed.

Lemma sort_Permutation (l : list A) : sort compare l ≡ₚ l.
Proof.
  induction l as [|x rest IH]; simpl; [done |].
  rewrite insertSorted_Permutation. by rewrite IH.
Qed.

Lemma insertSorted_StronglySorted (x : A) (l : list A) :
  StronglySorted (λ a b, compare a b <= 0) l →
  StronglySorted (λ a b, compare a b <= 0) (insertSorted compare x l).
Proof.
  induction l as [|y rest IH]; simpl; intros Hsorted.
  - repeat constructor.
  - apply StronglySorted_inv in Hsorted as [Hrest Hy].
    destruct (Z.leb_spec (compare x y) 0) as [Hle | Hgt].
    + constructor; [by constructor |].
      constructor; [done |]. eapply Forall_impl; [exact Hy |].
      intros z Hz. simpl in Hz. eauto.
    + constructor; [by apply IH |].
      rewrite insertSorted_Permutation. constructor; [| done].
      destruct (compare_total x y); [lia | done].
Qed.

Lemma sort_StronglySorted (l : list A) :
  StronglySorted (λ a b, compare a b <= 0) (sort compare l).
Proof.
  induction l as [|x rest IH]; simpl; [constructor |].
  by apply insertSorted_StronglySorted.
Qed.

End SortFacts.

Lemma StronglySorted_by_key {A} (compare : string → string → Z) (key : A → string)
    (l : list A) :
  StronglySorted (λ a b, compare (key a) (key b) <= 0) l →
  StronglySorted (precedes compare) (map key l).
Proof.
  induction 1 as [|x l Hsorted IH Hx]; simpl; constructor; [done |].
  apply Forall_fmap. exact Hx.
Qed.

(** ** What a save does to an item in memory *)

Lemma sameButFile_refl (a : Item) : sameButFile a a.
Proof. by repeat split. Qed.

Lemma sameButFile_trans (a b c : Item) : sameButFile a b → sameButFile b c → sameButFile a c.
Proof.
  intros (? & ? & ? & ? & ? & ? & ? & Hab) (? & ? & ? & ? & ? & ? & ? & Hbc).
  repeat split; try congruence. intros key Hkey. rewrite Hab by done. by apply Hbc.
Qed.

Lemma sameButFile_setItemFile (v : Value) (a : Item) : sameButFile a (setItemFile v a).
Proof. repeat split. intros key Hkey. simpl. by rewrite lookup_insert_ne. Qed.

Lemma keepsItem_ret {A} (a : A) : keepsItem (ret a).
Proof. intros s. apply sameButFile_refl. Qed.

Lemma keepsItem_throw {A} (e : string) : keepsItem (@throw SaveState A e).
Proof. intros s. apply sameButFile_refl. Qed.

Lemma keepsItem_bind {A B} (m : M SaveState A) (k : A → M SaveState B) :
  keepsItem m → (∀ a, keepsItem (k a)) → keepsItem (bind m k).
Proof.
  intros Hm Hk s. unfold bind. specialize (Hm s).
  destruct (m s) as [s' [a|e]]; simpl in *; [| done].
  eapply sameButFile_trans; [exact Hm | apply Hk].
Qed.

Lemma keepsItem_io {A} (m : M World A) : keepsItem (io m).
Proof. intros s. unfold io. destruct (m s.2). apply sameButFile_refl. Qed.

Lemma keepsItem_theItem : keepsItem theItem.
Proof. intros s. apply sameButFile_refl. Qed.

Lemma keepsItem_theVault : keepsItem theVault.
Proof. intros s. apply sameButFile_refl. Qed.

Lemma keepsItem_assignFile (v : Value) : keepsItem (assignFile v).
Proof. intros s. apply sameButFile_setItemFile. Qed.

Ltac keeps_item :=
  repeat first
    [ apply keepsItem_bind; [| intros ?]
    | apply keepsItem_ret
    | apply keepsItem_throw
    | apply keepsItem_io
    | apply keepsItem_theItem
    | apply keepsItem_theVault
    | apply keepsItem_assignFile
    | match goal with
      | |- keepsItem (match ?x with _ => _ end) => destruct x
      end ].

Lemma keepsItem_saveItemToCorrectFolder (fails : Op → bool) (columnName : string) :
  keepsItem (saveItemToCorrectFolder fails columnName).
Proof.
  unfold saveItemToCorrectFolder, moveItemToNewColumn, createNewItemFile,
    updateItemFileContent, ensureColumnFolder.
  keeps_item.
Qed.

Lemma saveItems_titles (fails : Op → bool) (columnName : string) (items : list Item)
    (expectedFiles : gset string) (w : World) :
  Forall2 sameButFile items (saveItems fails columnName items expectedFiles w).1.1.
Proof.
  revert expectedFiles w. induction items as [|item rest IH]; intros expectedFiles w; simpl.
  - constructor.
  - pose proof (keepsItem_saveItemToCorrectFolder fails columnName (item, w)) as Hitem.
    destruct (saveItemToCorrectFolder fails columnName (item, w)) as [[item' w'] outcome].
    simpl in Hitem.
    match goal with |- context [saveItems fails columnName rest ?e w'] =>
      specialize (IH e w'); destruct (saveItems fails columnName rest e w') as [[rest' e''] w'']
    end.
    simpl in *. by constructor.
Qed.

Lemma saveLanes_titles (fails : Op → bool) (lanes : list Lane) (w : World) :
  Forall2 (λ lane lane', lane_title lane' = lane_title lane
                          ∧ Forall2 sameButFile (lane_children lane) (lane_children lane'))
    lanes (saveLanes fails lanes w).1.
Proof.
  revert w. induction lanes as [|lane rest IH]; intros w; simpl.
  - constructor.
  - unfold saveLane.
    pose proof (saveItems_titles fails (lane_title lane) (lane_children lane) ∅ w) as Hitems.
    destruct (saveItems fails (lane_title lane) (lane_children lane) ∅ w)
      as [[items expectedFiles] w'].
    match goal with |- context [saveLanes fails rest ?w1] =>
      specialize (IH w1); destruct (saveLanes fails rest w1) as [rest' w'']
    end.
    simpl in *. by constructor.
Qed.

(** ** Order of columns and items *)

Lemma codeUnitCompare_le (a b : string) : codeUnitCompare a b <= 0 ↔ (a ≤ b)%string.
Proof.
  unfold codeUnitCompare, String.le, String.leb.
  destruct (String.compare a b); simpl; split; intros H; try done; lia.
Qed.

Lemma codeUnitCompare_total (a b : string) :
  codeUnitCompare a b <= 0 ∨ codeUnitCompare b a <= 0.
Proof. rewrite !codeUnitCompare_le. apply String.le_total. Qed.

Lemma codeUnitCompare_trans (a b c : string) :
  codeUnitCompare a b <= 0 → codeUnitCompare b c <= 0 → codeUnitCompare a c <= 0.
Proof. rewrite !codeUnitCompare_le. apply transitivity. Qed.

Lemma loadColumn_sorted (fails : Op → bool) (localeCompare : string → string → Z)
    (w : World) (columnName : string) (children : gmap string Node) :
  (∀ a b, localeCompare a b <= 0 ∨ localeCompare b a <= 0) →
  (∀ a b c, localeCompare a b <= 0 → localeCompare b c <= 0 → localeCompare a c <= 0) →
  StronglySorted (precedes localeCompare)
    (itemTitles (loadColumn fails localeCompare w columnName children)).
Proof.
  intros Htotal Htrans. unfold itemTitles, loadColumn. simpl.
  apply (StronglySorted_by_key localeCompare (λ item, titleRaw (item_data item))).
  apply (sort_StronglySorted
           (λ a b, localeCompare (titleRaw (item_data a)) (titleRaw (item_data b)))); eauto.
Qed.

(** C9, as the code has it.  A load of a board whose descriptor parses yields
    a board whose columns are ordered by title and whose items are ordered by
    title within every column, both under [localeCompare]; a save leaves the
    columns and the items in memory in the order in which it finds them. *)
Theorem load_orders_and_save_keeps_order
    (fails : Op → bool) (localeCompare : string → string → Z) (parseSettings : Text → Object)
    (w : World) (frontmatter : Object) (ast : list Block) :
  (∀ a b, localeCompare a b <= 0 ∨ localeCompare b a <= 0) →
  (∀ a b c, localeCompare a b <= 0 → localeCompare b c <= 0 → localeCompare a c <= 0) →
  (∃ board,
     loadFromFolderStructure fails localeCompare parseSettings w (Markdown frontmatter ast)
     = Some board
     ∧ StronglySorted (precedes localeCompare) (laneTitles board)
     ∧ Forall (λ lane, StronglySorted (precedes localeCompare) (itemTitles lane))
         (board_children board))
  ∧ (∀ fails' board w',
       laneTitles (saveAllItemsToFolders fails' board w').1 = laneTitles board
       ∧ map itemTitles (board_children (saveAllItemsToFolders fails' board w').1)
         = map itemTitles (board_children board)).
Proof.
  intros Htotal Htrans. split.
  - eexists. split; [reflexivity |]. simpl. split.
    + apply (StronglySorted_by_key localeCompare lane_title).
      apply (sort_StronglySorted (λ a b, localeCompare (lane_title a) (lane_title b))); eauto.
    + rewrite sort_Permutation. apply Forall_fmap, Forall_forall. intros [name children] _.
      by apply loadColumn_sorted.
  - intros fails' board w'. unfold saveAllItemsToFolders, laneTitles.
    pose proof (saveLanes_titles fails' (board_children board) w') as Hlanes.
    destruct (saveLanes fails' (board_children board) w') as [lanes w'']. simpl in *.
    induction Hlanes as [|lane lane' rest rest' [Htitle Hitems] Hrest IH]; [done |].
    destruct IH as [IH1 IH2]. simpl. rewrite Htitle, IH1, IH2. split; [done |].
    f_equal. unfold itemTitles. clear -Hitems.
    induction Hitems as [|item item' items items' Hsame _ IH]; [done |].
    simpl. rewrite IH. f_equal. symmetry. apply Hsame.
Qed.

Lemma load_orders_and_save_keeps_order_witness :
  (∀ a b, codeUnitCompare a b <= 0 ∨ codeUnitCompare b a <= 0)
  ∧ (∀ a b c, codeUnitCompare a b <= 0 → codeUnitCompare b c <= 0 → codeUnitCompare a c <= 0)
  ∧ (∃ board,
       Scenario.loadBoard Scenario.vaultColumns = Some board
       ∧ StronglySorted (precedes codeUnitCompare) (laneTitles board)
       ∧ Forall (λ lane, StronglySorted (precedes codeUnitCompare) (itemTitles lane))
           (board_children board)).
Proof.
  split; [exact codeUnitCompare_total |]. split; [exact codeUnitCompare_trans |].
  exact (proj1 (load_orders_and_save_keeps_order noFault codeUnitCompare (λ _, ∅)
                  (mkWorld Scenario.vaultColumns []) ∅ []
                  codeUnitCompare_total codeUnitCompare_trans)).
Defined.

(** C9, as stated, fails after a save: a column [Backlog] with the new items
    [zeta] and [alpha] is added after the columns [Done] and [Todo].  After
    the save the columns are [Done], [Todo], [Backlog] and the items of
    [Backlog] are [zeta], [alpha]; neither is in order. *)
Lemma order_after_save_counterexample :
  laneTitles (Scenario.save noFault Scenario.boardWithBacklog Scenario.vaultColumns).1
  = ["Done"; "Todo"; "Backlog"]
  ∧ ¬ StronglySorted (precedes codeUnitCompare)
        (laneTitles (Scenario.save noFault Scenario.boardWithBacklog Scenario.vaultColumns).1)
  ∧ map itemTitles
      (board_children (Scenario.save noFault Scenario.boardWithBacklog Scenario.vaultColumns).1)
    = [["d"]; ["t"]; ["zeta"; "alpha"]]
  ∧ ¬ StronglySorted (precedes codeUnitCompare) ["zeta"; "alpha"].
Proof.
  assert (Htitles :
    laneTitles (Scenario.save noFault Scenario.boardWithBacklog Scenario.vaultColumns).1
    = ["Done"; "Todo"; "Backlog"]) by (vm_compute; reflexivity).
  split; [exact Htitles |]. rewrite Htitles. split; [| split].
  - intros Hsorted. apply StronglySorted_inv in Hsorted as [Hsorted _].
    apply StronglySorted_inv in Hsorted as [_ Hle].
    apply Forall_inv in Hle. vm_compute in Hle. by apply Hle.
  - vm_compute. reflexivity.
  - intros Hsorted. apply StronglySorted_inv in Hsorted as [_ Hle].
    apply Forall_inv in Hle. vm_compute in Hle. by apply Hle.
Qed.

(** ** Allocation of file names *)

Lemma string_to_list_app (a b : string) :
  list_ascii_of_string (a +:+ b) = (list_ascii_of_string a ++ list_ascii_of_string b)%list.
Proof.
  induction a as [|x a IH]; [reflexivity |].
  change (x :: list_ascii_of_string (a +:+ b)
          = x :: (list_ascii_of_string a ++ list_ascii_of_string b)%list).
  by rewrite IH.
Qed.

Lemma append_inj_r (a b c : string) : a +:+ c = b +:+ c → a = b.
Proof.
  intros H. apply (f_equal list_ascii_of_string) in H.
  rewrite !string_to_list_app in H. apply app_inv_tail in H.
  rewrite <- (string_of_list_ascii_of_string a), <- (string_of_list_ascii_of_string b).
  by rewrite H.
Qed.

Lemma candidate_inj (baseName : string) : Inj (=) (=) (candidate baseName).
Proof.
  intros [|i] [|j] H; unfold candidate in H.
  - done.
  - apply (inj (String.app baseName)) in H. discriminate.
  - apply (inj (String.app baseName)) in H. discriminate.
  - apply (inj (String.app baseName)), (inj (String.app "_")), append_inj_r in H.
    by apply (inj pretty) in H.
Qed.

Lemma taken_bounded (target : gmap string Node) (f : nat → string) (n : nat) :
  Inj (=) (=) f →
  (∀ i, (i < n)%nat → is_Some (target !! f i)) → (n ≤ size target)%nat.
Proof.
  intros Hinj Htaken.
  assert (Hsub : list_to_set (f <$> seq 0 n) ⊆ dom target).
  { intros name Hname. apply elem_of_list_to_set, list_elem_of_fmap in Hname as (i & -> & Hi).
    apply elem_of_dom, Htaken. apply elem_of_seq in Hi. lia. }
  apply subseteq_size in Hsub.
  rewrite size_list_to_set, length_fmap, length_seq, size_dom in Hsub; [done |].
  apply NoDup_fmap; [done | apply NoDup_seq].
Qed.

Lemma createProbe_result (fuel : nat) (target : gmap string Node) (baseName : string) (k : nat) :
  (∀ i, (i < k)%nat → is_Some (target !! candidate baseName i)) →
  (size target < k + fuel)%nat →
  ∃ j, (∀ i, (i < j)%nat → is_Some (target !! candidate baseName i))
       ∧ target !! candidate baseName j = None
       ∧ createProbe fuel target baseName (candidate baseName k) (S k)
         = Some (candidate baseName j).
Proof.
  revert k. induction fuel as [|fuel IH]; intros k Htaken Hsize.
  - apply (taken_bounded target (candidate baseName)) in Htaken; [lia | apply candidate_inj].
  - simpl. destruct (target !! candidate baseName k) as [node|] eqn:Hk.
    + change (baseName +:+ "_" +:+ pretty (S k) +:+ ".md") with (candidate baseName (S k)).
      apply IH; [| lia]. intros i Hi. destruct (decide (i = k)) as [-> | Hne]; [by eexists |].
      apply Htaken. lia.
    + by exists k.
Qed.

Lemma ensureColumnFolder_run (fails : Op → bool) (columnName : string) (item : Item) (w : World) :
  (∀ content, vault w !! columnName ≠ Some (RFile content)) →
  fails (OpCreateFolder columnName) = false →
  ensureColumnFolder fails columnName (item, w) = ((item, withColumnFolder columnName w), Ok tt)
  ∧ findFolder (vault (withColumnFolder columnName w)) columnName
    = Some (default ∅ (findFolder (vault w) columnName)).
Proof.
  intros Hnofile Hok. unfold ensureColumnFolder, withColumnFolder, bind, theVault, ret, io,
    createFolder, perform, createFolder_effect, findFolder. simpl.
  destruct (vault w !! columnName) as [[content|children]|] eqn:Hcol; simpl.
  - by destruct (Hnofile content).
  - by rewrite Hcol.
  - rewrite Hok, Hcol. simpl. by rewrite lookup_insert_eq.
Qed.

(** C8, as the code has it.  A new item (no file back-reference) is saved
    into a column whose name no file of the board folder bears, and neither
    the creation of the folder nor the creation of the file fails.  The base
    name is the title with every character removed that is no letter, digit,
    white space ([\s], which includes TAB and the line breaks), [-] or [_],
    then trimmed, or [untitled] when nothing is left.  The save creates the
    column folder first when it is absent, then creates the file under the
    first of [baseName.md], [baseName_1.md], [baseName_2.md], ... that names
    nothing in the folder, with the generated content, and records it as the
    file of the item. *)
Theorem createNewItemFile_allocates
    (fails : Op → bool) (columnName : string) (item : Item) (w : World) :
  itemFile item = None →
  (∀ content, vault w !! columnName ≠ Some (RFile content)) →
  fails (OpCreateFolder columnName) = false →
  (∀ name, fails (OpCreate columnName name) = false) →
  let baseName :=
    JsString.orElse
      (JsString.trim (JsString.filter keptInFileName (titleRaw (item_data item)))) "untitled" in
  let target := default ∅ (findFolder (vault w) columnName) in
  ∃ k, (∀ j, (j < k)%nat → is_Some (target !! candidate baseName j))
       ∧ target !! candidate baseName k = None
       ∧ saveItemToCorrectFolder fails columnName (item, w)
         = ((setItemFile (VFile (mkTFile columnName (candidate baseName k))) item,
             mkWorld
               (<[columnName := RFolder (<[candidate baseName k
                                            := NFile (generateItemFileContent item)]> target)]>
                  (vault (withColumnFolder columnName w)))
               (journal (withColumnFolder columnName w)
                  ++ [(OpCreate columnName (candidate baseName k), true)])),
            Ok tt).
Proof.
  intros Hnew Hnofile Hfolder Hcreate baseName target.
  destruct (createProbe_result (S (size target)) target baseName 0) as (k & Htaken & Hfree & Hprobe);
    [intros i Hi; lia | lia |].
  exists k. split; [exact Htaken |]. split; [exact Hfree |].
  destruct (ensureColumnFolder_run fails columnName item w Hnofile Hfolder) as [Hensure Hfind].
  unfold saveItemToCorrectFolder. unfold bind at 1. unfold theItem at 1.
  cbn [fst snd]. rewrite Hnew.
  unfold createNewItemFile. unfold bind at 1. rewrite Hensure.
  unfold bind at 1. unfold theVault at 1. cbn [fst snd].
  unfold bind at 1. unfold theItem at 1. cbn [fst snd].
  rewrite Hfind. cbn [from_option id]. unfold sanitizedTitle. fold baseName. fold target.
  change (baseName +:+ ".md") with (candidate baseName 0). rewrite Hprobe.
  unfold bind, io, create, perform, assignFile, update, create_effect. cbn [fst snd].
  rewrite Hcreate, Hfind. fold target. rewrite Hfree. reflexivity.
Qed.

Lemma createNewItemFile_allocates_witness :
  itemFile (newItem "My Task!!" " ") = None
  ∧ (∀ content, vault (mkWorld ∅ []) !! "Todo" ≠ Some (RFile content))
  ∧ noFault (OpCreateFolder "Todo") = false
  ∧ (∀ name, noFault (OpCreate "Todo" name) = false)
  ∧ saveItemToCorrectFolder noFault "Todo" (newItem "My Task!!" " ", mkWorld ∅ [])
    = ((setItemFile (VFile (mkTFile "Todo" "My Task.md")) (newItem "My Task!!" " "),
        mkWorld
          {[ "Todo" := RFolder {[ "My Task.md"
                                  := NFile (generateItemFileContent (newItem "My Task!!" " ")) ]} ]}
          [(OpCreateFolder "Todo", true); (OpCreate "Todo" "My Task.md", true)]),
       Ok tt).
Proof.
  assert (Hnofile : ∀ content, vault (mkWorld ∅ []) !! "Todo" ≠ Some (RFile content)) by done.
  split; [reflexivity |]. split; [exact Hnofile |]. split; [reflexivity |].
  split; [reflexivity |].
  destruct (createNewItemFile_allocates noFault "Todo" (newItem "My Task!!" " ")
              (mkWorld ∅ []) eq_refl Hnofile eq_refl (λ _, eq_refl))
    as (k & Htaken & _ & Hsave).
  destruct k as [|k].
  - rewrite Hsave. vm_compute. reflexivity.
  - destruct (Htaken 0%nat) as [node Hnode]; [lia |]. vm_compute in Hnode. discriminate.
Defined.

(** C8, as stated, fails on a title with a TAB inside: the code keeps the
    TAB, which is white space, and creates [a<TAB>b.md]; with every character
    outside [[A-Za-z0-9 _-]] stripped the name would be [ab.md]. *)
Lemma file_name_counterexample :
  map (λ lane, map itemFile (lane_children lane))
    (board_children (Scenario.save noFault Scenario.boardTabbed ∅).1)
  = [[Some (mkTFile "Todo" (Scenario.tabbedTitle +:+ ".md"))]]
  ∧ is_Some (getAbstractFileByPath (vault (Scenario.save noFault Scenario.boardTabbed ∅).2)
               "Todo" (Scenario.tabbedTitle +:+ ".md"))
  ∧ fileNameAsSpecified Scenario.tabbedTitle = "ab.md"
  ∧ getAbstractFileByPath (vault (Scenario.save noFault Scenario.boardTabbed ∅).2) "Todo" "ab.md"
    = None.
Proof.
  split; [vm_compute; reflexivity |]. split; [vm_compute; by eexists |].
  split; vm_compute; reflexivity.
Qed.

(** ** The save of a board just loaded *)

Lemma update_run (fails : Op → bool) (folder name : string) (item : Item) (w : World)
    (children : gmap string Node) (content : Text) :
  itemFile item = Some (mkTFile folder name) →
  findFolder (vault w) folder = Some children →
  children !! name = Some (NFile content) →
  fails (OpModify (mkTFile folder name)) = false →
  saveItemToCorrectFolder fails folder (item, w)
  = ((item,
      mkWorld (<[folder := RFolder (<[name := NFile (generateItemFileContent item)]> children)]>
                 (vault w))
        (journal w ++ [(OpModify (mkTFile folder name), true)])),
     Ok tt).
Proof.
  intros Hfile Hfolder Hname Hok.
  unfold saveItemToCorrectFolder, bind, theItem. cbn [fst snd]. rewrite Hfile.
  cbn [file_parent]. rewrite String.eqb_refl.
  unfold updateItemFileContent, bind, theItem, io, modify, perform, modify_effect.
  cbn [fst snd file_parent file_name]. rewrite Hok, Hfolder, Hname. reflexivity.
Qed.

Lemma itemFile_loaded (file : TFile) (content : Text) (item : Item) :
  loadItemFromFile file content = Some item → itemFile item = Some file.
Proof.
  unfold loadItemFromFile. destruct (parseMarkdown content) as [[frontmatter ast]|]; [| done].
  destruct (itemTitle file frontmatter ast); try done.
  intros [= <-]. unfold itemFile. simpl. by rewrite lookup_insert_eq.
Qed.

Lemma written_lookup_other (items : list Item) (children : gmap string Node) (name : string) :
  (∀ item, item ∈ items → nameOf item ≠ name) →
  written items children !! name = children !! name.
Proof.
  revert children. induction items as [|item rest IH]; intros children Hother; [done |].
  unfold written in *. simpl. rewrite IH.
  - apply lookup_insert_ne, Hother. by left.
  - intros item' Hin. apply Hother. by right.
Qed.

Lemma written_lookup (items : list Item) (children : gmap string Node) (item : Item) :
  item ∈ items →
  (∀ item', item' ∈ items → nameOf item' = nameOf item → item' = item) →
  written items children !! nameOf item = Some (NFile (generateItemFileContent item)).
Proof.
  revert children. induction items as [|first rest IH]; intros children Hin Hunique.
  - by apply elem_of_nil in Hin.
  - unfold written in *. simpl.
    destruct (decide (nameOf item ∈ nameOf <$> rest)) as [Hrest | Hrest].
    + apply list_elem_of_fmap in Hrest as (item' & Hname & Hin').
      assert (item' = item) as -> by (apply Hunique; [by right | done]).
      apply IH; [done |]. intros item'' Hin''. apply Hunique. by right.
    + assert (first = item) as ->.
      { apply elem_of_cons in Hin as [-> | Hin]; [done |].
        destruct Hrest. apply list_elem_of_fmap. by exists item. }
      fold (written rest (<[nameOf item := NFile (generateItemFileContent item)]> children)).
      rewrite written_lookup_other; [apply lookup_insert_eq |].
      intros item' Hin' Hname. apply Hrest. apply list_elem_of_fmap. by exists item'.
Qed.

Lemma findFolder_Some (v : Vault) (folder : string) (children : gmap string Node) :
  findFolder v folder = Some children ↔ v !! folder = Some (RFolder children).
Proof.
  unfold findFolder. destruct (v !! folder) as [[content|children']|]; naive_solver.
Qed.

Lemma findFolder_insert (v : Vault) (folder : string) (children : gmap string Node) :
  findFolder (<[folder := RFolder children]> v) folder = Some children.
Proof. apply findFolder_Some, lookup_insert_eq. Qed.

Lemma saveItems_update (folder : string) (items : list Item) (expectedFiles : gset string)
    (w : World) (children : gmap string Node) :
  findFolder (vault w) folder = Some children →
  Forall (backedIn folder children) items →
  saveItems noFault folder items expectedFiles w
  = (items,
     list_to_set (nameOf <$> items) ∪ expectedFiles,
     mkWorld (<[folder := RFolder (written items children)]> (vault w))
       (journal w ++ ((λ item, (OpModify (mkTFile folder (nameOf item)), true)) <$> items))).
Proof.
  revert expectedFiles w children.
  induction items as [|item rest IH]; intros expectedFiles w children Hfolder Hitems.
  - simpl. unfold written. simpl. rewrite app_nil_r.
    apply findFolder_Some in Hfolder. rewrite insert_id by done.
    destruct w. f_equal. f_equal. set_solver.
  - apply Forall_cons in Hitems as [(name & content & Hfile & Hname) Hrest].
    simpl. rewrite (update_run noFault folder name item w children content) by done.
    assert (HnameOf : nameOf item = name) by (unfold nameOf; by rewrite Hfile).
    rewrite Hfile.
    rewrite (IH _ _ (<[name := NFile (generateItemFileContent item)]> children)).
    + cbn [vault journal file_name]. rewrite insert_insert_eq, <- app_assoc.
      unfold written. simpl. rewrite HnameOf. f_equal. f_equal. set_solver.
    + apply findFolder_insert.
    + eapply Forall_impl; [exact Hrest |].
      intros item' (name' & content' & Hfile' & Hname').
      exists name'. destruct (decide (name = name')) as [<- | Hne].
      * eexists. split; [done |]. apply lookup_insert_eq.
      * exists content'. split; [done |]. by rewrite lookup_insert_ne.
Qed.

Lemma removed_lookup (files : list TFile) (children : gmap string Node) (name : string) :
  removed files children !! name
  = if decide (name ∈ file_name <$> files) then None else children !! name.
Proof.
  revert children. induction files as [|file rest IH]; intros children; [done |].
  unfold removed in *. simpl. rewrite IH. rewrite lookup_delete.
  repeat case_decide; set_solver.
Qed.

Lemma delete_files_run (folder : string) (files : list TFile) (w : World)
    (children : gmap string Node) :
  findFolder (vault w) folder = Some children →
  Forall (λ file, file_parent file = folder
                  ∧ ∀ node, children !! file_name file = Some node → ∃ content, node = NFile content)
    files →
  vault (foldl (λ w file, tryCatch (delete_ noFault file) w) w files)
  = <[folder := RFolder (removed files children)]> (vault w).
Proof.
  revert w children. induction files as [|file rest IH]; intros w children Hfolder Hfiles.
  - simpl. apply findFolder_Some in Hfolder. by rewrite insert_id.
  - apply Forall_cons in Hfiles as [[Hparent Hfile] Hrest]. simpl.
    unfold tryCatch at 2, delete_, perform, delete_effect. cbn [noFault].
    rewrite Hparent, Hfolder.
    destruct (children !! file_name file) as [node|] eqn:Hnode.
    + destruct (Hfile node eq_refl) as [content ->]. cbn [fst].
      rewrite (IH _ (delete (file_name file) children)).
      * cbn [vault]. by rewrite insert_insert_eq.
      * apply findFolder_insert.
      * eapply Forall_impl; [exact Hrest |]. intros file' [Hparent' Hfile'].
        split; [done |]. intros node' Hnode'.
        apply lookup_delete_Some in Hnode' as [_ Hnode']. eauto.
    + cbn [fst]. rewrite (IH _ children); [| done |].
      * cbn [vault]. unfold removed. simpl. by rewrite delete_id.
      * eapply Forall_impl; [exact Hrest |]. naive_solver.
Qed.

Lemma filesToRemove_spec (folder : string) (children : gmap string Node)
    (expectedFiles : gset string) (file : TFile) :
  file ∈ filesToRemove folder children expectedFiles
  ↔ ∃ name content,
      file = mkTFile folder name ∧ children !! name = Some (NFile content)
      ∧ extension (mkTFile folder name) = "md" ∧ name ∉ expectedFiles.
Proof.
  unfold filesToRemove. rewrite list_elem_of_omap. split.
  - intros ([name node] & Hin & Hsome). apply elem_of_map_to_list in Hin. simpl in Hsome.
    destruct node as [content|]; [| done].
    destruct (String.eqb_spec (extension (mkTFile folder name)) "md") as [Hmd|]; [| done].
    simpl in Hsome. case_bool_decide; [done |]. simpl in Hsome.
    injection Hsome as <-. by exists name, content.
  - intros (name & content & -> & Hname & Hmd & Hnot).
    exists (name, NFile content). split; [by apply elem_of_map_to_list |].
    simpl. rewrite Hmd. simpl. by rewrite bool_decide_eq_false_2.
Qed.

Lemma cleanup_run (folder : string) (expectedFiles : gset string) (w : World)
    (children : gmap string Node) :
  findFolder (vault w) folder = Some children →
  vault (cleanupColumnFolder noFault folder expectedFiles w)
  = <[folder := RFolder (removed (filesToRemove folder children expectedFiles) children)]>
      (vault w).
Proof.
  intros Hfolder. unfold cleanupColumnFolder. rewrite Hfolder.
  apply delete_files_run; [done |]. apply Forall_forall. intros file Hfile.
  apply filesToRemove_spec in Hfile as (name & content & -> & Hname & _ & _).
  split; [done |]. simpl. intros node. rewrite Hname. intros [= <-]. by eexists.
Qed.

Lemma itemFiles_spec (folder : string) (children : gmap string Node) (file : TFile) :
  file ∈ itemFiles folder children
  ↔ ∃ name content,
      file = mkTFile folder name ∧ children !! name = Some (NFile content)
      ∧ extension (mkTFile folder name) = "md".
Proof.
  unfold itemFiles. rewrite list_elem_of_omap. split.
  - intros ([name node] & Hin & Hsome). apply elem_of_map_to_list in Hin. simpl in Hsome.
    destruct node as [content|]; [| done].
    destruct (String.eqb_spec (extension (mkTFile folder name)) "md") as [Hmd|]; [| done].
    injection Hsome as <-. by exists name, content.
  - intros (name & content & -> & Hname & Hmd).
    exists (name, NFile content). split; [by apply elem_of_map_to_list |].
    simpl. by rewrite Hmd.
Qed.

Lemma loadColumn_items (localeCompare : string → string → Z) (w : World) (folder : string)
    (children : gmap string Node) (item : Item) :
  findFolder (vault w) folder = Some children →
  item ∈ lane_children (loadColumn noFault localeCompare w folder children)
  ↔ hydratedFrom folder children item.
Proof.
  intros Hfolder. unfold loadColumn. cbn [lane_children].
  rewrite sort_Permutation, list_elem_of_omap. unfold hydratedFrom. split.
  - intros (file & Hfile & Hload). apply itemFiles_spec in Hfile as (name & content & -> & Hname & Hmd).
    exists name, content. split; [done |]. split; [done |].
    unfold loadItem, read, getAbstractFileByPath in Hload. cbn [noFault file_parent file_name] in Hload.
    by rewrite Hfolder, Hname in Hload.
  - intros (name & content & Hname & Hmd & Hload). exists (mkTFile folder name).
    split; [apply itemFiles_spec; by exists name, content |].
    unfold loadItem, read, getAbstractFileByPath. cbn [noFault file_parent file_name].
    by rewrite Hfolder, Hname.
Qed.

Lemma saveLane_loaded (localeCompare : string → string → Z) (w0 w : World) (folder : string)
    (children : gmap string Node) :
  findFolder (vault w0) folder = Some children →
  findFolder (vault w) folder = Some children →
  let lane := loadColumn noFault localeCompare w0 folder children in
  (saveLane noFault lane w).1 = lane
  ∧ vault (saveLane noFault lane w).2
    = <[folder := RFolder (rewrittenFolder folder children)]> (vault w).
Proof.
  intros Hfolder0 Hfolder lane.
  assert (Hitems : ∀ item, item ∈ lane_children lane ↔ hydratedFrom folder children item)
    by (intros item; by apply loadColumn_items).
  assert (Hbacked : Forall (backedIn folder children) (lane_children lane)).
  { apply Forall_forall. intros item Hin. apply Hitems in Hin as (name & content & Hname & _ & Hload).
    exists name, content. split; [by eapply itemFile_loaded | done]. }
  unfold saveLane. change (lane_title lane) with folder.
  rewrite (saveItems_update folder _ ∅ w children) by done.
  cbv beta iota. cbn [fst snd]. split; [done |].
  rewrite (cleanup_run folder _ _ (written (lane_children lane) children))
    by apply findFolder_insert.
  cbn [vault]. rewrite insert_insert_eq. f_equal. f_equal.
  apply map_eq. intros name. unfold rewrittenFolder. rewrite removed_lookup, map_lookup_imap.
  assert (Hnamed : ∀ item, item ∈ lane_children lane → nameOf item = name →
                   ∃ content, children !! name = Some (NFile content)
                              ∧ extension (mkTFile folder name) = "md"
                              ∧ loadItemFromFile (mkTFile folder name) content = Some item).
  { intros item Hin Hname. apply Hitems in Hin as (name' & content & Hlookup & Hmd & Hload).
    assert (name' = name) as ->.
    { apply itemFile_loaded in Hload as Hfile. unfold nameOf in Hname. by rewrite Hfile in Hname. }
    by exists content. }
  assert (Hwritten : written (lane_children lane) children !! name
                     = match children !! name ≫= rewrittenNode folder name with
                       | Some node => Some node
                       | None => children !! name
                       end).
  { destruct (children !! name) as [node|] eqn:Hlookup; simpl.
    - destruct node as [content|]; simpl.
      + destruct (String.eqb_spec (extension (mkTFile folder name)) "md") as [Hmd | Hmd].
        * destruct (loadItemFromFile (mkTFile folder name) content) as [item|] eqn:Hload.
          -- assert (Hname : nameOf item = name).
             { apply itemFile_loaded in Hload. unfold nameOf. by rewrite Hload. }
             subst name. apply written_lookup.
             ++ apply Hitems. by exists (nameOf item), content.
             ++ intros item' Hin' Hname'.
                destruct (Hnamed item' Hin' Hname') as (content' & Hlookup' & _ & Hload').
                congruence.
          -- rewrite written_lookup_other; [done |]. intros item Hin Hname.
             destruct (Hnamed item Hin Hname) as (content' & Hlookup' & _ & Hload'). congruence.
        * rewrite written_lookup_other; [done |]. intros item Hin Hname.
          destruct (Hnamed item Hin Hname) as (content' & _ & Hmd' & _). done.
      + rewrite written_lookup_other; [done |]. intros item Hin Hname.
        destruct (Hnamed item Hin Hname) as (content' & Hlookup' & _). congruence.
    - rewrite written_lookup_other; [done |]. intros item Hin Hname.
      destruct (Hnamed item Hin Hname) as (content' & Hlookup' & _). congruence. }
  rewrite Hwritten. case_decide as Hremoved.
  - apply list_elem_of_fmap in Hremoved as (file & -> & Hfile).
    apply filesToRemove_spec in Hfile as (name & content & -> & Hlookup & Hmd & Hexpected).
    cbn [file_name] in *. clear Hwritten.
    destruct (children !! name) as [node|] eqn:Hchild; simpl.
    + destruct node as [content'|]; simpl.
      * rewrite Hmd. simpl.
        destruct (loadItemFromFile (mkTFile folder name) content') as [item|] eqn:Hload; [| done].
        destruct Hexpected. apply elem_of_union_l, elem_of_list_to_set, list_elem_of_fmap.
        exists item. split.
        -- apply itemFile_loaded in Hload. unfold nameOf. by rewrite Hload.
        -- apply Hitems. by exists name, content'.
      * rewrite written_lookup_other in Hlookup; [congruence |]. intros item Hin Hname.
        destruct (Hnamed item Hin Hname) as (content' & Hlookup' & _). congruence.
    + rewrite written_lookup_other in Hlookup; [congruence |]. intros item Hin Hname.
      destruct (Hnamed item Hin Hname) as (content' & Hlookup' & _). congruence.
  - destruct (children !! name ≫= rewrittenNode folder name) as [node|] eqn:Hrewritten; [done |].
    destruct (children !! name) as [node|] eqn:Hchild; [| done]. simpl in Hrewritten.
    destruct node as [content|]; [| done]. simpl in Hrewritten.
    destruct (String.eqb_spec (extension (mkTFile folder name)) "md") as [Hmd | Hmd]; [| done].
    destruct (loadItemFromFile (mkTFile folder name) content) as [item|] eqn:Hload; [done |].
    destruct Hremoved. apply list_elem_of_fmap. exists (mkTFile folder name). split; [done |].
    apply filesToRemove_spec. exists name, content. split; [done |].
    split; [exact Hwritten |]. split; [done |].
    intros Hin. apply elem_of_union in Hin as [Hin | Hin]; [| set_solver].
    apply elem_of_list_to_set, list_elem_of_fmap in Hin as (item & Hname & Hin).
    destruct (Hnamed item Hin (eq_sym Hname)) as (content' & Hlookup' & _ & Hload'). congruence.
Qed.

Lemma saveLanes_loaded (localeCompare : string → string → Z) (w0 : World)
    (columns : list (string * gmap string Node)) (w : World) :
  NoDup columns.*1 →
  Forall (λ column, findFolder (vault w0) column.1 = Some column.2
                    ∧ findFolder (vault w) column.1 = Some column.2) columns →
  let lanes := map (λ column : string * gmap string Node,
                      loadColumn noFault localeCompare w0 column.1 column.2) columns in
  (saveLanes noFault lanes w).1 = lanes
  ∧ ∀ name,
      vault (saveLanes noFault lanes w).2 !! name
      = match (list_to_map columns : gmap string (gmap string Node)) !! name with
        | Some children => Some (RFolder (rewrittenFolder name children))
        | None => vault w !! name
        end.
Proof.
  revert w. induction columns as [|[folder children] rest IH]; intros w Hnodup Hcolumns.
  - simpl. split; [done |]. intros name. by rewrite lookup_empty.
  - apply Forall_cons in Hcolumns as [[Hfolder0 Hfolder] Hrest].
    apply NoDup_cons in Hnodup as [Hfresh Hnodup]. simpl in *.
    destruct (saveLane_loaded localeCompare w0 w folder children Hfolder0 Hfolder)
      as [Hlane Hvault].
    destruct (saveLane noFault (loadColumn noFault localeCompare w0 folder children) w)
      as [lane' w1]. simpl in Hlane, Hvault. subst lane'.
    destruct (IH w1 Hnodup) as [Hlanes Hlookup].
    { apply Forall_forall. intros [folder' children'] Hin.
      rewrite Forall_forall in Hrest. destruct (Hrest _ Hin) as [H0 H1]. split; [done |].
      simpl in *. rewrite Hvault. unfold findFolder. rewrite lookup_insert_ne; [done |].
      intros ->. apply Hfresh. apply list_elem_of_fmap. by exists (folder', children'). }
    destruct (saveLanes noFault _ w1) as [lanes' w2]. simpl in *. subst lanes'.
    split; [done |]. intros name. rewrite Hlookup.
    destruct (decide (folder = name)) as [<- | Hne].
    + rewrite lookup_insert_eq. rewrite not_elem_of_list_to_map_1 by done.
      rewrite Hvault. apply lookup_insert_eq.
    + rewrite lookup_insert_ne by done.
      destruct (list_to_map rest !! name); [done |]. rewrite Hvault. by rewrite lookup_insert_ne.
Qed.

Lemma columnFolders_spec (v : Vault) (folder : string) (children : gmap string Node) :
  (folder, children) ∈ columnFolders v ↔ v !! folder = Some (RFolder children).
Proof.
  unfold columnFolders, boardChildren. rewrite list_elem_of_omap. split.
  - intros ([name child] & Hin & Hsome). apply elem_of_map_to_list in Hin.
    destruct child; simpl in Hsome; [done |]. by injection Hsome as -> ->.
  - intros Hlookup. exists (folder, RFolder children).
    split; [by apply elem_of_map_to_list | done].
Qed.

Lemma columnFolders_NoDup (v : Vault) : NoDup (columnFolders v).*1.
Proof.
  unfold columnFolders, boardChildren.
  pose proof (NoDup_fst_map_to_list v) as Hnodup.
  induction (map_to_list v) as [|[name child] rest IH]; [constructor |].
  simpl in *. apply NoDup_cons in Hnodup as [Hfresh Hnodup].
  destruct child as [content|children]; simpl; [by apply IH |].
  apply NoDup_cons. split; [| by apply IH].
  intros Hin. apply Hfresh. apply list_elem_of_fmap in Hin as ([name' children'] & -> & Hin).
  apply list_elem_of_omap in Hin as ([name'' child''] & Hin & Hsome).
  destruct child''; simpl in Hsome; [done |]. injection Hsome as -> ->.
  apply list_elem_of_fmap. by eexists (_, _).
Qed.

Lemma unchanged_save_vault (localeCompare : string → string → Z) (parseSettings : Text → Object)
    (w : World) (frontmatter : Object) (ast : list Block) :
  ∃ board,
    loadFromFolderStructure noFault localeCompare parseSettings w (Markdown frontmatter ast)
    = Some board
    ∧ (saveAllItemsToFolders noFault board w).1 = board
    ∧ vault (saveAllItemsToFolders noFault board w).2 = rewrittenVault (vault w).
Proof.
  eexists. split; [reflexivity |]. unfold saveAllItemsToFolders. cbn [board_children].
  set (load := λ column : string * gmap string Node,
                 loadColumn noFault localeCompare w column.1 column.2).
  set (lanes := sort _ _).
  assert (Hperm : lanes ≡ₚ map load (columnFolders (vault w))) by apply sort_Permutation.
  apply Permutation_map_inv in Hperm as (columns & Hlanes & Hperm).
  assert (Hin : ∀ folder children,
            (folder, children) ∈ columns ↔ vault w !! folder = Some (RFolder children)).
  { intros folder children. rewrite <- Hperm. apply columnFolders_spec. }
  destruct (saveLanes_loaded localeCompare w columns w) as [Hsame Hlookup].
  { rewrite <- Hperm. apply columnFolders_NoDup. }
  { apply Forall_forall. intros [folder children] Hcolumn. apply Hin in Hcolumn.
    by split; apply findFolder_Some. }
  fold load in Hsame, Hlookup. rewrite <- Hlanes in Hsame, Hlookup.
  destruct (saveLanes noFault lanes w) as [lanes' w']. simpl in *. subst lanes'.
  split; [done |]. apply map_eq. intros name. rewrite Hlookup.
  unfold rewrittenVault. rewrite map_lookup_imap.
  destruct (list_to_map columns !! name) as [children|] eqn:Hcolumn.
  - apply elem_of_list_to_map in Hcolumn; [| rewrite <- Hperm; apply columnFolders_NoDup].
    apply Hin in Hcolumn. by rewrite Hcolumn.
  - destruct (vault w !! name) as [[content|children]|] eqn:Hchild; [done | | done].
    assert (Hsome : (list_to_map columns : gmap string (gmap string Node)) !! name
                    = Some children); [| congruence].
    apply elem_of_list_to_map_1'; [| by apply Hin].
    intros children' Hin'. apply Hin in Hin'. congruence.
Qed.

(** ** Moves between columns *)

Lemma moveCandidate_inj (baseName extension : string) :
  Inj (=) (=) (moveCandidate baseName extension).
Proof.
  intros i j H. unfold moveCandidate in H.
  apply (inj (String.app baseName)), (inj (String.app "_")), append_inj_r in H.
  by apply (inj pretty) in H.
Qed.

Lemma moveProbe_result (fuel : nat) (target : gmap string Node) (baseName extension : string)
    (k : nat) :
  (∀ i, (1 ≤ i < k)%nat → is_Some (target !! moveCandidate baseName extension i)) →
  (size target + 1 < k + fuel)%nat →
  ∃ j, (k ≤ j)%nat
       ∧ (∀ i, (1 ≤ i < j)%nat → is_Some (target !! moveCandidate baseName extension i))
       ∧ target !! moveCandidate baseName extension j = None
       ∧ moveProbe fuel target baseName extension k
         = Some (moveCandidate baseName extension j).
Proof.
  revert k. induction fuel as [|fuel IH]; intros k Htaken Hsize.
  - assert (k - 1 ≤ size target)%nat; [| lia].
    apply (taken_bounded target (λ i, moveCandidate baseName extension (S i))).
    + intros i j H. apply moveCandidate_inj in H. lia.
    + intros i Hi. apply Htaken. lia.
  - simpl. fold (moveCandidate baseName extension k).
    destruct (target !! moveCandidate baseName extension k) as [node|] eqn:Hk.
    + destruct (IH (S k)) as (j & Hj & Hrest); [| lia |].
      * intros i Hi. destruct (decide (i = k)) as [-> | Hne]; [by eexists |].
        apply Htaken. lia.
      * exists j. split; [lia | done].
    + exists k. split; [lia |]. done.
Qed.

(** X11.  The move of the file of an item into another column, when the
    operations it needs do not fail: the file leaves its folder and arrives
    in the folder of the new column, which is created when missing, under
    its own name when that name is free there and under the first free name
    [base_k.ext] otherwise; no file of the target folder is overwritten; the
    item points to the file that arrived and that file holds the content of
    the item. *)
Lemma moveItemToNewColumn_moves (fails : Op → bool) (item : Item) (w : World)
    (folder name newColumnName : string) (children : gmap string Node) (content : Text) :
  itemFile item = Some (mkTFile folder name) →
  folder ≠ newColumnName →
  findFolder (vault w) folder = Some children →
  children !! name = Some (NFile content) →
  (∀ content', vault w !! newColumnName ≠ Some (RFile content')) →
  fails (OpCreateFolder newColumnName) = false →
  (∀ newName, fails (OpRename (mkTFile folder name) newColumnName newName) = false) →
  (∀ newName, fails (OpModify (mkTFile newColumnName newName)) = false) →
  let target := default ∅ (findFolder (vault w) newColumnName) in
  ∃ newName,
    arrivesAs target (mkTFile folder name) newName
    ∧ target !! newName = None
    ∧ let item' := setItemFile (VFile (mkTFile newColumnName newName)) item in
      saveItemToCorrectFolder fails newColumnName (item, w)
      = ((item',
          mkWorld
            (<[newColumnName := RFolder (<[newName := NFile (generateItemFileContent item')]>
                                           target)]>
               (<[folder := RFolder (delete name children)]>
                  (vault (withColumnFolder newColumnName w))))
            (journal (withColumnFolder newColumnName w)
               ++ [(OpRename (mkTFile folder name) newColumnName newName, true);
                   (OpModify (mkTFile newColumnName newName), true)])),
         Ok tt).
Proof.
  intros Hfile Hne Hfolder Hname Hnofile HcreateFolder Hrename Hmodify target.
  destruct (ensureColumnFolder_run fails newColumnName item w Hnofile HcreateFolder)
    as [Hensure Hfind].
  set (w1 := withColumnFolder newColumnName w) in *.
  assert (Hfolder1 : findFolder (vault w1) folder = Some children).
  { unfold w1, withColumnFolder. destruct (findFolder (vault w) newColumnName); [done |].
    simpl. unfold findFolder in *. by rewrite lookup_insert_ne. }
  assert (Hexists : ∃ newName,
            arrivesAs target (mkTFile folder name) newName ∧ target !! newName = None
            ∧ match target !! name with
              | Some _ => moveProbe (S (size target)) target (basename (mkTFile folder name))
                            (extension (mkTFile folder name)) 1 = Some newName
              | None => True
              end).
  { unfold arrivesAs. cbn [file_name]. destruct (target !! name) as [node|] eqn:Htaken.
    - destruct (moveProbe_result (S (size target)) target (basename (mkTFile folder name))
                  (extension (mkTFile folder name)) 1) as (k & Hk & Hbelow & Hfree & Hprobe);
        [intros i Hi; lia | lia |].
      eexists. split; [| split; [exact Hfree | exact Hprobe]]. by exists k.
    - by exists name. }
  destruct Hexists as (newName & Harrives & Hfree & Hprobe).
  exists newName. split; [exact Harrives |]. split; [exact Hfree |].
  assert (Hrun : ∀ s : SaveState, s = (item, w1) →
            (bind (io (renameFile fails (mkTFile folder name) newColumnName newName))
               (λ _, bind theVault (λ v, assignFile (fileAt v newColumnName newName)))) s
            = ((setItemFile (VFile (mkTFile newColumnName newName)) item,
                mkWorld (<[newColumnName := RFolder (<[newName := NFile content]> target)]>
                           (<[folder := RFolder (delete name children)]> (vault w1)))
                  (journal w1 ++ [(OpRename (mkTFile folder name) newColumnName newName, true)])),
               Ok tt)).
  { intros s ->. unfold bind, io, renameFile, perform, rename_effect, delete_effect,
      create_effect, getAbstractFileByPath. cbn [fst snd file_parent file_name].
    rewrite Hrename, Hfolder1, Hname, Hfind. fold target. rewrite Hfree.
    assert (Hfind' : findFolder (<[folder := RFolder (delete name children)]> (vault w1))
                       newColumnName = Some target).
    { unfold findFolder in *. rewrite lookup_insert_ne by done. exact Hfind. }
    rewrite Hfind', Hfree. cbn [fst snd]. unfold theVault, assignFile, update. cbn [fst snd vault].
    unfold fileAt, getAbstractFileByPath. rewrite findFolder_insert, lookup_insert_eq. reflexivity. }
  unfold saveItemToCorrectFolder. unfold bind at 1. unfold theItem at 1. cbn [fst snd].
  rewrite Hfile. cbn [file_parent]. rewrite (proj2 (String.eqb_neq _ _) Hne).
  unfold moveItemToNewColumn. unfold bind at 1. rewrite Hensure.
  unfold bind at 1. unfold theVault at 1. cbn [fst snd]. rewrite Hfind. cbn [from_option id].
  fold target. cbn [file_name file_parent].
  assert (Hmoved :
    (match target !! name with
     | Some _ =>
         if bool_decide (folder ≠ newColumnName)
         then match moveProbe (S (size target)) target (basename (mkTFile folder name))
                      (extension (mkTFile folder name)) 1 with
              | Some uniqueName =>
                  bind (io (renameFile fails (mkTFile folder name) newColumnName uniqueName))
                    (λ _, bind theVault (λ v, assignFile (fileAt v newColumnName uniqueName)))
              | None => throw "unreachable"
              end
         else bind (io (renameFile fails (mkTFile folder name) newColumnName name))
                (λ _, bind theVault (λ v, assignFile (fileAt v newColumnName name)))
     | None => bind (io (renameFile fails (mkTFile folder name) newColumnName name))
                 (λ _, bind theVault (λ v, assignFile (fileAt v newColumnName name)))
     end) (item, w1)
    = ((setItemFile (VFile (mkTFile newColumnName newName)) item,
        mkWorld (<[newColumnName := RFolder (<[newName := NFile content]> target)]>
                   (<[folder := RFolder (delete name children)]> (vault w1)))
          (journal w1 ++ [(OpRename (mkTFile folder name) newColumnName newName, true)])),
       Ok tt)).
  { unfold arrivesAs in Harrives. cbn [file_name] in Harrives.
    destruct (target !! name) as [node|].
    - rewrite bool_decide_eq_true_2 by done. rewrite Hprobe. by apply Hrun.
    - subst newName. by apply Hrun. }
  unfold bind at 1. rewrite Hmoved.
  unfold bind, theItem, updateItemFileContent. cbn [fst snd].
  assert (Hmeta : metadata (item_data (setItemFile (VFile (mkTFile newColumnName newName)) item))
                  !! "file" = Some (VFile (mkTFile newColumnName newName))).
  { simpl. apply lookup_insert_eq. }
  rewrite Hmeta. unfold bind, theItem, io, modify, perform, modify_effect.
  cbn [fst snd file_parent file_name vault]. rewrite Hmodify, findFolder_insert, lookup_insert_eq.
  cbn [fst snd vault journal]. by rewrite !insert_insert_eq, <- app_assoc.
Qed.

Lemma moveItemToNewColumn_moves_witness :
  itemFile Scenario.movedItem = Some (mkTFile "A" "t.md")
  ∧ findFolder Scenario.vaultMove "A"
    = Some {[ "t.md" := NFile (Markdown {[ "note" := VStr "moved" ]} []) ]}
  ∧ ∃ newName,
      findFolder Scenario.vaultMove "B" ≫= (.!! newName) = None
      ∧ (saveItemToCorrectFolder noFault "B"
           (Scenario.movedItem, mkWorld Scenario.vaultMove [])).2 = Ok tt
      ∧ (saveItemToCorrectFolder noFault "B"
           (Scenario.movedItem, mkWorld Scenario.vaultMove [])).1.1
        = setItemFile (VFile (mkTFile "B" newName)) Scenario.movedItem.
Proof.
  assert (Hfile : itemFile Scenario.movedItem = Some (mkTFile "A" "t.md")).
  { vm_compute. reflexivity. }
  assert (Hfolder : findFolder (vault (mkWorld Scenario.vaultMove [])) "A"
                    = Some {[ "t.md" := NFile (Markdown {[ "note" := VStr "moved" ]} []) ]}).
  { vm_compute. reflexivity. }
  split; [exact Hfile |]. split; [exact Hfolder |].
  destruct (moveItemToNewColumn_moves noFault Scenario.movedItem (mkWorld Scenario.vaultMove [])
              "A" "t.md" "B" {[ "t.md" := NFile (Markdown {[ "note" := VStr "moved" ]} []) ]}
              (Markdown {[ "note" := VStr "moved" ]} []) Hfile)
    as (newName & _ & Hfree & Hsave);
    [done | exact Hfolder | vm_compute; reflexivity | | reflexivity
     | intros; reflexivity | intros; reflexivity |].
  { intros content Hcontent. vm_compute in Hcontent. discriminate. }
  exists newName. rewrite Hsave. cbn [fst snd]. split; [| done].
  change (findFolder Scenario.vaultMove "B")
    with (findFolder (vault (mkWorld Scenario.vaultMove [])) "B").
  destruct (findFolder (vault (mkWorld Scenario.vaultMove [])) "B"); [exact Hfree | done].
Defined.

(** On the vault of the example the move of [A/t.md] into column [B], run
    while the file is still there, ends at [B/t_1.md] and leaves [B/t.md] as
    it is. *)
Lemma move_alone_on_example :
  let saved := saveItemToCorrectFolder noFault "B" (Scenario.movedItem, mkWorld Scenario.vaultMove []) in
  saved.2 = Ok tt
  ∧ itemFile saved.1.1 = Some (mkTFile "B" "t_1.md")
  ∧ getAbstractFileByPath (vault saved.1.2) "A" "t.md" = None
  ∧ getAbstractFileByPath (vault saved.1.2) "B" "t.md"
    = getAbstractFileByPath Scenario.vaultMove "B" "t.md"
  ∧ getAbstractFileByPath (vault saved.1.2) "B" "t_1.md"
    = Some (NFile (generateItemFileContent saved.1.1)).
Proof. repeat split; vm_compute; reflexivity. Qed.

(** ** The front matter of a written file *)

(** The fields of the front matter [generateItemFileContent] writes: the
    metadata of the item passes through except for the file back-reference
    and the fields the function sets itself. *)
Lemma generateItemFrontmatter_fields (item : Item) :
  (∀ key, key ∉ ["id"; "completed"; "parent_id"; "aliases"; "tags"; "file"] →
     generateItemFrontmatter item !! key = metadata (item_data item) !! key)
  ∧ generateItemFrontmatter item !! "file" = None
  ∧ generateItemFrontmatter item !! "completed"
    = (if String.eqb (checkChar (item_data item)) "x" then Some (VBool true) else None)
  ∧ generateItemFrontmatter item !! "parent_id"
    = Some (if truthy (parent_id (item_data item)) then parent_id (item_data item) else VNull)
  ∧ generateItemFrontmatter item !! "aliases"
    = Some (propOr (metadata (item_data item) !! "aliases") (VSeq []))
  ∧ generateItemFrontmatter item !! "tags"
    = Some (propOr (metadata (item_data item) !! "tags") (VSeq []))
  ∧ generateItemFrontmatter item !! "id"
    = Some (VStr match itemFile item with
                 | Some file => basename file
                 | None => JsString.orElse (sanitizedTitle item) "untitled"
                 end).
Proof.
  unfold generateItemFrontmatter.
  destruct (String.eqb (checkChar (item_data item)) "x"), (itemFile item);
    (split; [intros key Hkey; repeat (apply not_elem_of_cons in Hkey as [? Hkey]) |]);
    repeat split; by simplify_map_eq.
Qed.

(** X15.  For an item that was checked by hand the block has [completed: true],
    for an unchecked one it has no [completed] at all; [parent_id], [aliases],
    [tags] and [id] are always there. *)
Lemma generateItemFrontmatter_required (item : Item) :
  (generateItemFrontmatter item !! "completed" = Some (VBool true)
   ↔ checkChar (item_data item) = "x")
  ∧ (generateItemFrontmatter item !! "completed" = None
     ↔ checkChar (item_data item) ≠ "x")
  ∧ is_Some (generateItemFrontmatter item !! "parent_id")
  ∧ is_Some (generateItemFrontmatter item !! "aliases")
  ∧ is_Some (generateItemFrontmatter item !! "tags")
  ∧ is_Some (generateItemFrontmatter item !! "id").
Proof.
  destruct (generateItemFrontmatter_fields item)
    as (_ & _ & Hcompleted & Hparent & Haliases & Htags & Hid).
  rewrite Hcompleted, Hparent, Haliases, Htags, Hid.
  destruct (String.eqb_spec (checkChar (item_data item)) "x"); naive_solver.
Qed.

(** ** Load, then save *)

Lemma getAbstractFileByPath_rewritten (v : Vault) (folder name : string) :
  getAbstractFileByPath (rewrittenVault v) folder name
  = getAbstractFileByPath v folder name ≫= rewrittenNode folder name.
Proof.
  unfold getAbstractFileByPath, findFolder, rewrittenVault. rewrite map_lookup_imap.
  destruct (v !! folder) as [[content|children]|]; simpl; [done | | done].
  unfold rewrittenFolder. by rewrite map_lookup_imap.
Qed.

Lemma loaded_item_fields (file : TFile) (frontmatter : Object) (body : list Block) (item : Item) :
  loadItemFromFile file (Markdown frontmatter body) = Some item →
  metadata (item_data item) = <["file" := VFile file]> frontmatter
  ∧ String.eqb (checkChar (item_data item)) "x" = isCompleted frontmatter
  ∧ parent_id (item_data item) = propOr (frontmatter !! "parent_id") VNull.
Proof.
  unfold loadItemFromFile. simpl. destruct (itemTitle file frontmatter body); try done.
  intros [= <-]. simpl. split; [done |]. split; [| done]. by destruct (isCompleted frontmatter).
Qed.

(** C1, as the code has it.  A board is loaded and saved again, unchanged
    and without a failing operation.  The save leaves the board in memory as
    it is.  Every [.md] file of a column folder that hydrated into an item is
    at its path after the save and holds the front matter generated from that
    item; no path appears that was not there; every other child of a column
    folder is as it was.  In the generated front matter every key other than
    [id], [completed], [parent_id], [aliases], [tags] and [file] has the value
    that was loaded; [id] is the base name of the file; [completed] is [true]
    when the item is checked and absent otherwise; [parent_id], [aliases] and
    [tags] keep a truthy value and are otherwise [null], [[]] and [[]]; a key
    [file] is dropped. *)
Theorem unchanged_save_keeps_paths_and_fields
    (localeCompare : string → string → Z) (parseSettings : Text → Object)
    (w : World) (frontmatter : Object) (ast : list Block) :
  ∃ board,
    loadFromFolderStructure noFault localeCompare parseSettings w (Markdown frontmatter ast)
    = Some board
    ∧ (saveAllItemsToFolders noFault board w).1 = board
    ∧ (∀ folder name content item,
         getAbstractFileByPath (vault w) folder name = Some (NFile content) →
         extension (mkTFile folder name) = "md" →
         loadItemFromFile (mkTFile folder name) content = Some item →
         getAbstractFileByPath (vault (saveAllItemsToFolders noFault board w).2) folder name
         = Some (NFile (Markdown (generateItemFrontmatter item) [])))
    ∧ (∀ folder name,
         is_Some (getAbstractFileByPath (vault (saveAllItemsToFolders noFault board w).2)
                    folder name) →
         is_Some (getAbstractFileByPath (vault w) folder name))
    ∧ (∀ folder name node,
         getAbstractFileByPath (vault w) folder name = Some node →
         isMarkdownFile folder name node = false →
         getAbstractFileByPath (vault (saveAllItemsToFolders noFault board w).2) folder name
         = Some node)
    ∧ (∀ file loaded body item,
         loadItemFromFile file (Markdown loaded body) = Some item →
         (∀ key, key ∉ ["id"; "completed"; "parent_id"; "aliases"; "tags"; "file"] →
            generateItemFrontmatter item !! key = loaded !! key)
         ∧ generateItemFrontmatter item !! "id" = Some (VStr (basename file))
         ∧ generateItemFrontmatter item !! "completed"
           = (if checked (item_data item) then Some (VBool true) else None)
         ∧ generateItemFrontmatter item !! "parent_id"
           = Some (propOr (loaded !! "parent_id") VNull)
         ∧ generateItemFrontmatter item !! "aliases"
           = Some (propOr (loaded !! "aliases") (VSeq []))
         ∧ generateItemFrontmatter item !! "tags"
           = Some (propOr (loaded !! "tags") (VSeq []))
         ∧ generateItemFrontmatter item !! "file" = None).
Proof.
  destruct (unchanged_save_vault localeCompare parseSettings w frontmatter ast)
    as (board & Hload & Hboard & Hvault).
  exists board. split; [exact Hload |]. split; [exact Hboard |]. rewrite Hvault.
  split; [| split; [| split]].
  - intros folder name content item Hfile Hmd Hitem.
    rewrite getAbstractFileByPath_rewritten, Hfile. simpl.
    rewrite Hmd. simpl. by rewrite Hitem.
  - intros folder name. rewrite getAbstractFileByPath_rewritten.
    destruct (getAbstractFileByPath (vault w) folder name); [by eexists |].
    simpl. by intros [? ?].
  - intros folder name node Hnode Hother.
    rewrite getAbstractFileByPath_rewritten, Hnode. simpl.
    destruct node as [content|]; simpl in *; [| done]. by rewrite Hother.
  - intros file loaded body item Hitem.
    destruct (loaded_item_fields file loaded body item Hitem) as (Hmeta & Hcheck & Hparent).
    destruct (generateItemFrontmatter_fields item)
      as (Hpass & Hfile & Hcompleted & Hparent' & Haliases & Htags & Hid).
    rewrite (itemFile_loaded _ _ _ Hitem) in Hid.
    rewrite Hmeta in Hpass, Haliases, Htags. rewrite Hparent in Hparent'.
    rewrite lookup_insert_ne in Haliases, Htags by done.
    split; [| split; [| split; [| split; [| split; [| split]]]]]; try done.
    + intros key Hkey. rewrite Hpass by done. apply lookup_insert_ne.
      intros <-. apply Hkey. set_solver.
    + rewrite Hcompleted, Hcheck.
      unfold loadItemFromFile in Hitem. simpl in Hitem.
      destruct (itemTitle file loaded body); try done. by injection Hitem as <-.
    + rewrite Hparent'. f_equal. unfold propOr.
      destruct (loaded !! "parent_id") as [v|]; [| done].
      by destruct (truthy v) eqn:Hv; [rewrite Hv |].
Qed.

(** C1, as stated, fails on the task file of the README with a few more
    fields: after the load and the unchanged save the file is at its path,
    but [completed: false] and [file] are gone, and the empty [tags] and
    [parent_id] have become [[]] and [null]. *)
Lemma unchanged_save_counterexample :
  ∃ board written,
    Scenario.loadBoard Scenario.vaultRoundTrip = Some board
    ∧ getAbstractFileByPath Scenario.vaultRoundTrip "Todo" "task1.md"
      = Some (NFile (Markdown Scenario.taskFrontmatter Scenario.taskBody))
    ∧ getAbstractFileByPath
        (vault (Scenario.save noFault board Scenario.vaultRoundTrip).2) "Todo" "task1.md"
      = Some (NFile (Markdown written []))
    ∧ (Scenario.taskFrontmatter !! "completed" = Some (VBool false)
       ∧ written !! "completed" = None)
    ∧ (Scenario.taskFrontmatter !! "file" = Some (VStr "notes.pdf")
       ∧ written !! "file" = None)
    ∧ (Scenario.taskFrontmatter !! "tags" = Some VNull
       ∧ written !! "tags" = Some (VSeq []))
    ∧ (Scenario.taskFrontmatter !! "parent_id" = Some (VStr "")
       ∧ written !! "parent_id" = Some VNull).
Proof.
  eexists. eexists. split; [vm_compute; reflexivity |].
  split; [vm_compute; reflexivity |]. split; [vm_compute; reflexivity |].
  repeat split; vm_compute; reflexivity.
Qed.

(** A [.md] file that does not hydrate (here its title is a number) is not
    part of the loaded board, and the save of that board deletes it. *)
Lemma unhydrated_file_deleted :
  ∃ board,
    Scenario.loadBoard Scenario.vaultNumericTitle = Some board
    ∧ board_children board = [mkLane "Todo" []]
    ∧ findFolder (vault (Scenario.save noFault board Scenario.vaultNumericTitle).2) "Todo"
      = Some ∅.
Proof. eexists. repeat split; vm_compute; reflexivity. Qed.

(** ** A written file, read again *)

Lemma splitExtension_md (s : string) : splitExtension (s +:+ ".md") = (s, Some "md").
Proof.
  induction s as [|c s IH]; [reflexivity |].
  change (String c s +:+ ".md") with (String c (s +:+ ".md")).
  cbn [splitExtension]. by rewrite IH.
Qed.

Lemma titleIsText_loaded (file : TFile) (frontmatter : Object) (ast : list Block) (item : Item) :
  loadItemFromFile file (Markdown frontmatter ast) = Some item → titleIsText frontmatter.
Proof.
  intros Hload v Hv Htruthy.
  assert (Hcases : (∃ s, v = VStr s) ∨ ∀ s, v ≠ VStr s).
  { destruct v; try (by right); left; by eexists. }
  destruct Hcases as [Hstr | Hnot]; [done |].
  by rewrite (loadItemFromFile_title_not_text file frontmatter ast v Hv Htruthy Hnot) in Hload.
Qed.

Lemma reload_written (item : Item) (file : TFile) :
  titleIsText (metadata (item_data item)) →
  ∃ item',
    loadItemFromFile file (generateItemFileContent item) = Some item'
    ∧ metadata (item_data item') = <["file" := VFile file]> (generateItemFrontmatter item)
    ∧ titleRaw (item_data item')
      = match metadata (item_data item) !! "title" with
        | Some (VStr title) => JsString.orElse title (basename file)
        | _ => basename file
        end
    ∧ checked (item_data item') = isCompleted (generateItemFrontmatter item)
    ∧ checkChar (item_data item') = (if checked (item_data item') then "x" else " ")
    ∧ parent_id (item_data item')
      = (if truthy (parent_id (item_data item)) then parent_id (item_data item) else VNull).
Proof.
  intros Htext.
  destruct (generateItemFrontmatter_fields item)
    as (Hpass & _ & _ & Hparent & _ & _ & _).
  assert (Htitle : generateItemFrontmatter item !! "title" = metadata (item_data item) !! "title").
  { apply Hpass. set_solver. }
  assert (Htext' : titleIsText (generateItemFrontmatter item)).
  { intros v Hv. rewrite Htitle in Hv. by apply Htext. }
  unfold generateItemFileContent, loadItemFromFile. simpl.
  rewrite (itemTitle_derived file _ [] Htext').
  eexists. split; [reflexivity |]. simpl. split; [done |].
  split; [by unfold derivedTitle; rewrite Htitle |].
  split; [done |]. split; [done |].
  rewrite Hparent. unfold propOr. by destruct (truthy (parent_id (item_data item))) eqn:Hp; [rewrite Hp |].
Qed.

Lemma isCompleted_written (item : Item) :
  isCompleted (generateItemFrontmatter item) = true
  ↔ checkChar (item_data item) = "x"
    ∨ metadata (item_data item) !! "status" = Some (VStr "completed")
    ∨ metadata (item_data item) !! "done" = Some (VBool true).
Proof.
  destruct (generateItemFrontmatter_fields item) as (Hpass & _ & Hcompleted & _).
  rewrite isCompleted_iff, Hcompleted, !Hpass by set_solver.
  destruct (String.eqb_spec (checkChar (item_data item)) "x"); naive_solver.
Qed.

Lemma truthy_propOr (o : option Value) (d : Value) :
  truthy d = true → truthy (propOr o d) = true.
Proof. intros Hd. unfold propOr. destruct o as [v|]; [| done]. by destruct (truthy v) eqn:Hv. Qed.

Lemma propOr_truthy (v d : Value) : truthy v = true → propOr (Some v) d = v.
Proof. intros Hv. unfold propOr. by rewrite Hv. Qed.

Lemma reload_fixpoint (file : TFile) (frontmatter : Object) (ast : list Block) (item : Item) :
  loadItemFromFile file (Markdown frontmatter ast) = Some item →
  ∃ item',
    loadItemFromFile file (generateItemFileContent item) = Some item'
    ∧ generateItemFrontmatter item' = generateItemFrontmatter item
    ∧ checked (item_data item') = checked (item_data item)
    ∧ parent_id (item_data item') = parent_id (item_data item)
    ∧ titleRaw (item_data item') = derivedTitle file frontmatter [].
Proof.
  intros Hload.
  destruct (loaded_item_fields file frontmatter ast item Hload) as (Hmeta & Hcheck & Hparent).
  pose proof (itemFile_loaded _ _ _ Hload) as Hfile.
  pose proof (titleIsText_loaded _ _ _ _ Hload) as Htext.
  assert (Hchecked : checked (item_data item) = isCompleted frontmatter).
  { unfold loadItemFromFile in Hload. simpl in Hload.
    destruct (itemTitle file frontmatter ast); try done. by injection Hload as <-. }
  destruct (reload_written item file) as (item' & Hload' & Hmeta' & Htitle' & Hchecked' & Hchar' & Hparent').
  { intros v Hv. rewrite Hmeta, lookup_insert_ne in Hv by done. by apply Htext. }
  assert (Hsame : isCompleted (generateItemFrontmatter item) = isCompleted frontmatter).
  { apply eq_true_iff_eq. rewrite isCompleted_written, Hmeta, !lookup_insert_ne by done.
    rewrite <- String.eqb_eq, Hcheck, !isCompleted_iff. naive_solver. }
  assert (Hpid : parent_id (item_data item') = parent_id (item_data item)).
  { rewrite Hparent', Hparent. unfold propOr.
    destruct (frontmatter !! "parent_id") as [v|]; [| done].
    by destruct (truthy v) eqn:Hv; [rewrite Hv |]. }
  exists item'. split; [exact Hload' |].
  split; [| split; [congruence | split; [exact Hpid |]]].
  - destruct (generateItemFrontmatter_fields item)
      as (Hpass & Hnofile & Hcompleted & Hpar & Haliases & Htags & Hid).
    destruct (generateItemFrontmatter_fields item')
      as (Hpass' & Hnofile' & Hcompleted' & Hpar' & Haliases' & Htags' & Hid').
    rewrite (itemFile_loaded _ _ _ Hload') in Hid'. rewrite Hfile in Hid.
    rewrite Hmeta' in Hpass', Haliases', Htags'.
    rewrite lookup_insert_ne in Haliases', Htags' by done.
    apply map_eq. intros key.
    destruct (decide (key = "id")) as [-> | ?]; [congruence |].
    destruct (decide (key = "file")) as [-> | ?]; [congruence |].
    destruct (decide (key = "completed")) as [-> | ?].
    { rewrite Hcompleted', Hcompleted, Hchar', Hchecked', Hsame, <- Hcheck.
      by destruct (String.eqb (checkChar (item_data item)) "x"). }
    destruct (decide (key = "parent_id")) as [-> | ?].
    { rewrite Hpar', Hpar, Hpid.
      by destruct (truthy (parent_id (item_data item))). }
    destruct (decide (key = "aliases")) as [-> | ?].
    { rewrite Haliases', Haliases. f_equal. by apply propOr_truthy, truthy_propOr. }
    destruct (decide (key = "tags")) as [-> | ?].
    { rewrite Htags', Htags. f_equal. by apply propOr_truthy, truthy_propOr. }
    rewrite Hpass' by set_solver. by rewrite lookup_insert_ne.
  - rewrite Htitle', Hmeta, lookup_insert_ne by done. reflexivity.
Qed.

Lemma rewrittenNode_idem (folder name : string) (node node' : Node) :
  rewrittenNode folder name node = Some node' →
  rewrittenNode folder name node' = Some node'.
Proof.
  destruct node as [content|]; simpl; [| by intros [= <-]].
  destruct (String.eqb (extension (mkTFile folder name)) "md") eqn:Hmd.
  - destruct content as [raw|frontmatter ast]; [done |].
    destruct (loadItemFromFile (mkTFile folder name) (Markdown frontmatter ast))
      as [item|] eqn:Hload; [| done].
    intros [= <-]. simpl. rewrite Hmd.
    destruct (reload_fixpoint _ _ _ _ Hload) as (item' & Hload' & Hsame & _).
    rewrite Hload'. unfold generateItemFileContent. by rewrite Hsame.
  - intros [= <-]. simpl. by rewrite Hmd.
Qed.

Lemma rewrittenVault_idem (v : Vault) : rewrittenVault (rewrittenVault v) = rewrittenVault v.
Proof.
  apply map_eq. intros folder. unfold rewrittenVault. rewrite !map_lookup_imap.
  destruct (v !! folder) as [[content|children]|]; simpl; [done | | done].
  f_equal. f_equal. apply map_eq. intros name. unfold rewrittenFolder.
  rewrite !map_lookup_imap. destruct (children !! name) as [node|]; simpl; [| done].
  destruct (rewrittenNode folder name node) as [node'|] eqn:Hnode; simpl; [| done].
  by eapply rewrittenNode_idem.
Qed.

(** X1.  A file written by [generateItemFileContent] is hydrated again by
    [loadItemFromFile] whenever the [title] in the metadata of the item is
    text or falsy.  The item it gives points back to the file; its metadata
    is the front matter that was written; its title is the [title] of the
    metadata or else the base name of the file, the title held in memory is
    not read back; it is checked exactly when the item written had the check
    character [x], [status: completed] or [done: true]; its [parent_id] is
    the one written. *)
Theorem written_file_loads_back (item : Item) (file : TFile) :
  titleIsText (metadata (item_data item)) →
  ∃ item',
    loadItemFromFile file (generateItemFileContent item) = Some item'
    ∧ itemFile item' = Some file
    ∧ (∀ key, key ≠ "file" →
         metadata (item_data item') !! key = generateItemFrontmatter item !! key)
    ∧ titleRaw (item_data item')
      = match metadata (item_data item) !! "title" with
        | Some (VStr title) => JsString.orElse title (basename file)
        | _ => basename file
        end
    ∧ (checked (item_data item') = true
       ↔ checkChar (item_data item) = "x"
         ∨ metadata (item_data item) !! "status" = Some (VStr "completed")
         ∨ metadata (item_data item) !! "done" = Some (VBool true))
    ∧ checkChar (item_data item') = (if checked (item_data item') then "x" else " ")
    ∧ parent_id (item_data item')
      = (if truthy (parent_id (item_data item)) then parent_id (item_data item) else VNull).
Proof.
  intros Htext.
  destruct (reload_written item file Htext)
    as (item' & Hload & Hmeta & Htitle & Hchecked & Hchar & Hparent).
  exists item'. split; [exact Hload |].
  split; [by apply itemFile_loaded in Hload |].
  split; [intros key Hkey; by rewrite Hmeta, lookup_insert_ne |].
  split; [exact Htitle |].
  split; [rewrite Hchecked; apply isCompleted_written |]. done.
Qed.

Lemma written_file_loads_back_witness :
  titleIsText (metadata (item_data (newItem "Task" "x")))
  ∧ ∃ item',
      loadItemFromFile (mkTFile "Todo" "Task.md") (generateItemFileContent (newItem "Task" "x"))
      = Some item'
      ∧ titleRaw (item_data item') = "Task"
      ∧ checked (item_data item') = true.
Proof.
  assert (Htext : titleIsText (metadata (item_data (newItem "Task" "x")))).
  { intros v Hv. vm_compute in Hv. discriminate. }
  split; [exact Htext |].
  destruct (written_file_loads_back (newItem "Task" "x") (mkTFile "Todo" "Task.md") Htext)
    as (item' & Hload & _ & _ & Htitle & Hchecked & _).
  exists item'. split; [exact Hload |]. split; [exact Htitle |].
  apply Hchecked. left. reflexivity.
Defined.

(** X2.  For an item hydrated from a file the content
    [generateItemFileContent] writes is a fixed point: hydrating that content
    and writing it again gives the same content, with the same [checked] and
    [parent_id].  The title is then the one derived from the front matter and
    the file name alone, since the body of the file is not written. *)
Theorem rewrite_of_loaded_item_is_stable
    (file : TFile) (frontmatter : Object) (ast : list Block) (item : Item) :
  loadItemFromFile file (Markdown frontmatter ast) = Some item →
  ∃ item',
    loadItemFromFile file (generateItemFileContent item) = Some item'
    ∧ generateItemFileContent item' = generateItemFileContent item
    ∧ checked (item_data item') = checked (item_data item)
    ∧ parent_id (item_data item') = parent_id (item_data item)
    ∧ titleRaw (item_data item') = derivedTitle file frontmatter [].
Proof.
  intros Hload.
  destruct (reload_fixpoint file frontmatter ast item Hload)
    as (item' & Hload' & Hsame & Hchecked & Hparent & Htitle).
  exists item'. split; [exact Hload' |].
  split; [unfold generateItemFileContent; by rewrite Hsame | done].
Qed.

Lemma rewrite_of_loaded_item_is_stable_witness :
  loadItemFromFile (mkTFile "Todo" "t.md") (Markdown {[ "status" := VStr "completed" ]} [])
  = Some (Scenario.hydrated "Todo" "t.md" {[ "status" := VStr "completed" ]})
  ∧ ∃ item',
      loadItemFromFile (mkTFile "Todo" "t.md")
        (generateItemFileContent (Scenario.hydrated "Todo" "t.md" {[ "status" := VStr "completed" ]}))
      = Some item'
      ∧ checked (item_data item') = true
      ∧ titleRaw (item_data item') = "t".
Proof.
  assert (Hload : loadItemFromFile (mkTFile "Todo" "t.md")
                    (Markdown {[ "status" := VStr "completed" ]} [])
                  = Some (Scenario.hydrated "Todo" "t.md" {[ "status" := VStr "completed" ]})).
  { vm_compute. reflexivity. }
  split; [exact Hload |].
  destruct (rewrite_of_loaded_item_is_stable _ _ _ _ Hload)
    as (item' & Hload' & _ & Hchecked & _ & Htitle).
  exists item'. split; [exact Hload' |].
  split; [rewrite Hchecked | rewrite Htitle]; vm_compute; reflexivity.
Defined.

(** X3.  When no operation fails a second cycle of load and save changes
    nothing: once a board has been loaded and saved, loading it again and
    saving it leaves the vault as the first save left it. *)
Theorem second_cycle_changes_nothing
    (localeCompare : string → string → Z) (parseSettings : Text → Object)
    (w : World) (frontmatter : Object) (ast : list Block) :
  ∃ board,
    loadFromFolderStructure noFault localeCompare parseSettings w (Markdown frontmatter ast)
    = Some board
    ∧ ∃ board',
        loadFromFolderStructure noFault localeCompare parseSettings
          (saveAllItemsToFolders noFault board w).2 (Markdown frontmatter ast)
        = Some board'
        ∧ vault (saveAllItemsToFolders noFault board'
                   (saveAllItemsToFolders noFault board w).2).2
          = vault (saveAllItemsToFolders noFault board w).2.
Proof.
  destruct (unchanged_save_vault localeCompare parseSettings w frontmatter ast)
    as (board & Hload & _ & Hvault).
  exists board. split; [exact Hload |].
  destruct (unchanged_save_vault localeCompare parseSettings
              (saveAllItemsToFolders noFault board w).2 frontmatter ast)
    as (board' & Hload' & _ & Hvault').
  exists board'. split; [exact Hload' |].
  rewrite Hvault', Hvault. apply rewrittenVault_idem.
Qed.

(** ** An edit of the title *)

Lemma generateItemFrontmatter_updateItemContent (item : Item) (content : string) :
  is_Some (itemFile item) →
  generateItemFrontmatter (updateItemContent item content) = generateItemFrontmatter item.
Proof.
  intros [file Hfile]. unfold generateItemFrontmatter.
  change (itemFile (updateItemContent item content)) with (itemFile item).
  by rewrite Hfile.
Qed.

Lemma setItemFile_updateItemContent (v : Value) (item : Item) (content : string) :
  setItemFile v (updateItemContent item content) = updateItemContent (setItemFile v item) content.
Proof. reflexivity. Qed.

Lemma title_edit_sim (fails : Op → bool) (columnName : string) (item : Item)
    (content : string) (w : World) :
  is_Some (itemFile item) →
  saveItemToCorrectFolder fails columnName (updateItemContent item content, w)
  = ((updateItemContent (saveItemToCorrectFolder fails columnName (item, w)).1.1 content,
      (saveItemToCorrectFolder fails columnName (item, w)).1.2),
     (saveItemToCorrectFolder fails columnName (item, w)).2).
Proof.
  intros [file Hfile].
  assert (Hgen : ∀ v, generateItemFileContent (updateItemContent (setItemFile (VFile v) item) content)
                      = generateItemFileContent (setItemFile (VFile v) item)).
  { intros v. unfold generateItemFileContent. rewrite generateItemFrontmatter_updateItemContent; [done |].
    unfold itemFile. simpl. rewrite lookup_insert_eq. by eexists. }
  assert (Hgen0 : generateItemFileContent (updateItemContent item content)
                  = generateItemFileContent item).
  { unfold generateItemFileContent. rewrite generateItemFrontmatter_updateItemContent; [done | by eexists]. }
  unfold saveItemToCorrectFolder, bind, theItem. cbn [fst snd].
  change (itemFile (updateItemContent item content)) with (itemFile item). rewrite Hfile.
  destruct (String.eqb (file_parent file) columnName).
  - unfold updateItemFileContent, bind, theItem, io. cbn [fst snd]. rewrite Hgen0.
    by destruct (modify fails file (generateItemFileContent item) w).
  - unfold moveItemToNewColumn, ensureColumnFolder, updateItemFileContent, assignFile, update,
      bind, theItem, theVault, io, ret, throw. cbn [fst snd].
    repeat (case_match; simplify_eq/=; try done).
    all: rewrite ?lookup_insert_eq in *; simplify_eq/=.
    all: try match goal with H : fileAt _ _ _ = VFile _ |- _ => rewrite H in * end.
    all: rewrite ?setItemFile_updateItemContent, ?Hgen in *; try by simplify_eq.
    all: congruence.
Qed.

(** X4.  [updateItemContent] changes the raw title only, and for an item
    that has a file the raw title is no part of what is written: the save of
    the edited item writes the same content, leaves the same world and has
    the same outcome as the save of the item before the edit, whichever
    operations fail. *)
Theorem edited_title_is_not_written (fails : Op → bool) (columnName : string) (item : Item)
    (content : string) (w : World) :
  is_Some (itemFile item) →
  generateItemFileContent (updateItemContent item content) = generateItemFileContent item
  ∧ (saveItemToCorrectFolder fails columnName (updateItemContent item content, w)).1.2
    = (saveItemToCorrectFolder fails columnName (item, w)).1.2
  ∧ (saveItemToCorrectFolder fails columnName (updateItemContent item content, w)).2
    = (saveItemToCorrectFolder fails columnName (item, w)).2
  ∧ (saveItemToCorrectFolder fails columnName (updateItemContent item content, w)).1.1
    = updateItemContent (saveItemToCorrectFolder fails columnName (item, w)).1.1 content.
Proof.
  intros Hfile. rewrite (title_edit_sim fails columnName item content w Hfile). cbn [fst snd].
  split; [| done].
  unfold generateItemFileContent. by rewrite generateItemFrontmatter_updateItemContent.
Qed.

Lemma edited_title_is_not_written_witness :
  is_Some (itemFile Scenario.movedItem)
  ∧ vault (saveItemToCorrectFolder noFault "A"
             (updateItemContent Scenario.movedItem "a new title",
              mkWorld Scenario.vaultMove [])).1.2
    = vault (saveItemToCorrectFolder noFault "A"
               (Scenario.movedItem, mkWorld Scenario.vaultMove [])).1.2.
Proof.
  assert (Hfile : is_Some (itemFile Scenario.movedItem)).
  { exists (mkTFile "A" "t.md"). vm_compute. reflexivity. }
  split; [exact Hfile |].
  destruct (edited_title_is_not_written noFault "A" Scenario.movedItem "a new title"
              (mkWorld Scenario.vaultMove []) Hfile) as (_ & Hworld & _).
  by rewrite Hworld.
Defined.

(** ** What a load yields *)

Lemma NoDup_omap_key {A B K} (g : A → option B) (key : A → K) (key' : B → K) (l : list A) :
  (∀ x y, g x = Some y → key' y = key x) →
  NoDup (key <$> l) → NoDup (key' <$> omap g l).
Proof.
  intros Hkey. induction l as [|x l IH]; simpl; [constructor |].
  intros Hnodup. apply NoDup_cons in Hnodup as [Hx Hl].
  destruct (g x) as [y|] eqn:Hgx; [| by apply IH].
  simpl. apply NoDup_cons. split; [| by apply IH].
  intros Hin. apply Hx. apply list_elem_of_fmap in Hin as (y' & Hy' & Hin).
  apply list_elem_of_omap in Hin as (x' & Hx' & Hgx').
  apply list_elem_of_fmap. exists x'. split; [| done].
  by rewrite <- (Hkey x y Hgx), Hy', (Hkey x' y' Hgx').
Qed.

Lemma omap_length_le {A B} (f : A → option B) (l : list A) :
  (length (omap f l) ≤ length l)%nat.
Proof.
  induction l as [|x l IH]; simpl; [done |].
  unfold omap in IH. destruct (f x); simpl; lia.
Qed.

Lemma itemFiles_NoDup (folder : string) (children : gmap string Node) :
  NoDup (file_name <$> itemFiles folder children).
Proof.
  unfold itemFiles. apply (NoDup_omap_key _ fst); [| apply NoDup_fst_map_to_list].
  intros [name node] file Hfile. simpl in *. destruct node; [| done].
  by case_match; simplify_eq.
Qed.

Lemma loadItem_file (fails : Op → bool) (w : World) (file : TFile) (item : Item) :
  loadItem fails w file = Some item → itemFile item = Some file.
Proof.
  unfold loadItem. destruct (read fails file w); [| done]. apply itemFile_loaded.
Qed.

Lemma loaded_lane_backed (fails : Op → bool) (localeCompare : string → string → Z) (w : World)
    (folder : string) (children : gmap string Node) (item : Item) :
  item ∈ lane_children (loadColumn fails localeCompare w folder children) →
  ∃ name content,
    itemFile item = Some (mkTFile folder name)
    ∧ children !! name = Some (NFile content)
    ∧ extension (mkTFile folder name) = "md".
Proof.
  unfold loadColumn. cbn [lane_children]. intros Hin. rewrite sort_Permutation in Hin.
  apply list_elem_of_omap in Hin as (file & Hfile & Hload).
  apply itemFiles_spec in Hfile as (name & content & -> & Hname & Hmd).
  exists name, content. split; [by eapply loadItem_file | done].
Qed.

(** X5.  The lane [loadColumn] makes of a folder has the name of the folder
    as its title; each of its items is backed by a [.md] file directly in the
    folder, no two items by the same file, so that the lane has at most as
    many items as the folder has children.  This holds whichever reads
    fail. *)
Theorem loaded_items_have_files_of_their_own
    (fails : Op → bool) (localeCompare : string → string → Z) (w : World)
    (folder : string) (children : gmap string Node) :
  lane_title (loadColumn fails localeCompare w folder children) = folder
  ∧ NoDup (itemFile <$> lane_children (loadColumn fails localeCompare w folder children))
  ∧ (∀ item, item ∈ lane_children (loadColumn fails localeCompare w folder children) →
       ∃ name content,
         itemFile item = Some (mkTFile folder name)
         ∧ children !! name = Some (NFile content)
         ∧ extension (mkTFile folder name) = "md")
  ∧ (length (lane_children (loadColumn fails localeCompare w folder children))
     ≤ size children)%nat.
Proof.
  unfold loadColumn. cbn [lane_title lane_children].
  split; [done |]. split; [| split].
  - rewrite sort_Permutation.
    apply (NoDup_omap_key _ Some); [intros file item; apply loadItem_file |].
    apply (NoDup_fmap_2 _). eapply NoDup_fmap_1, itemFiles_NoDup.
  - fold (loadColumn fails localeCompare w folder children). apply loaded_lane_backed.
  - rewrite sort_Permutation. etrans; [apply omap_length_le |]. unfold itemFiles.
    etrans; [apply omap_length_le |]. by rewrite length_map_to_list.
Qed.

(** X6.  [loadBoardAsync] rejects exactly when the board folder has no
    sub-folder or the descriptor does not parse.  The board it gives
    otherwise has at least one lane, one lane for each sub-folder of the
    board folder and no two lanes with the same title, and the front matter
    of the descriptor. *)
Theorem loadBoardAsync_lanes
    (fails : Op → bool) (localeCompare : string → string → Z) (parseSettings : Text → Object)
    (w : World) (md : Text) :
  (loadBoardAsync fails localeCompare parseSettings w md = None
   ↔ hasFolderStructure (vault w) = false ∨ parseMarkdown md = None)
  ∧ (∀ board,
       loadBoardAsync fails localeCompare parseSettings w md = Some board →
       board_children board ≠ []
       ∧ NoDup (laneTitles board)
       ∧ (∀ title, title ∈ laneTitles board
                   ↔ ∃ children, vault w !! title = Some (RFolder children))
       ∧ Some (board_frontmatter board) = fst <$> parseMarkdown md).
Proof.
  unfold loadBoardAsync, loadFromFolderStructure. split.
  - destruct (hasFolderStructure (vault w)); [| naive_solver].
    destruct (parseMarkdown md) as [[frontmatter ast]|]; naive_solver.
  - intros board Hboard.
    destruct (hasFolderStructure (vault w)) eqn:Hhas; [| done].
    destruct (parseMarkdown md) as [[frontmatter ast]|]; [| done].
    injection Hboard as <-. unfold laneTitles. cbn [board_children board_frontmatter].
    set (load := λ c : string * gmap string Node, loadColumn fails localeCompare w c.1 c.2).
    assert (Htitles : lane_title <$> sort (λ a b, localeCompare (lane_title a) (lane_title b))
                                       (map load (columnFolders (vault w)))
                      ≡ₚ (columnFolders (vault w)).*1).
    { rewrite sort_Permutation.
      change (map load (columnFolders (vault w))) with (load <$> columnFolders (vault w)).
      by rewrite <- list_fmap_compose. }
    assert (Hin : ∀ title, title ∈ (columnFolders (vault w)).*1
                           ↔ ∃ children, vault w !! title = Some (RFolder children)).
    { intros title. rewrite list_elem_of_fmap. split.
      - intros ([name children] & -> & Hin). exists children. by apply columnFolders_spec.
      - intros [children Hchildren]. exists (title, children).
        split; [done | by apply columnFolders_spec]. }
    assert (Hmap : ∀ l : list Lane, map lane_title l = lane_title <$> l).
    { induction l as [|lane l IH]; simpl; by f_equal. }
    rewrite Hmap. split; [| split; [| split; [| done]]].
    + intros Hempty. rewrite Hempty in Htitles. simpl in Htitles. symmetry in Htitles.
      apply Permutation_nil_r in Htitles.
      apply (proj1 (hasFolderStructure_loop_true _)) in Hhas as ([name child] & Hin' & Hfolder).
      destruct child as [|children]; [done |].
      apply elem_of_map_to_list in Hin'.
      assert (Hname : name ∈ (columnFolders (vault w)).*1) by (apply Hin; eauto).
      rewrite Htitles in Hname. by apply elem_of_nil in Hname.
    + rewrite Htitles. apply columnFolders_NoDup.
    + intros title. rewrite Htitles. apply Hin.
Qed.

Lemma earlier_detection_characterised (boardFolder : Vault) :
  Earlier.hasFolderStructure boardFolder = true
  ↔ ∃ folder children name content,
      boardFolder !! folder = Some (RFolder children)
      ∧ children !! name = Some (NFile content)
      ∧ extension (mkTFile folder name) = "md".
Proof.
  unfold Earlier.hasFolderStructure, boardChildren.
  assert (Hmd : ∀ folder children,
            Earlier.hasMarkdownFiles folder children = true
            ↔ ∃ name content, children !! name = Some (NFile content)
                              ∧ extension (mkTFile folder name) = "md").
  { intros folder children. unfold Earlier.hasMarkdownFiles. rewrite existsb_exists. split.
    - intros ([name node] & Hin & Hnode). apply list_elem_of_In, elem_of_map_to_list in Hin.
      destruct node as [content|]; [| done]. simpl in Hnode. apply String.eqb_eq in Hnode. eauto.
    - intros (name & content & Hname & Hext). exists (name, NFile content).
      split; [by apply list_elem_of_In, elem_of_map_to_list |]. simpl. by apply String.eqb_eq. }
  assert (Hloop : ∀ l, Earlier.hasFolderStructure_loop l = true
                       ↔ ∃ folder children, (folder, RFolder children) ∈ l
                                            ∧ Earlier.hasMarkdownFiles folder children = true).
  { induction l as [|[folder child] rest IH]; simpl.
    - split; [done | intros (? & ? & Hin & _); by apply elem_of_nil in Hin].
    - destruct child as [content|children].
      + rewrite IH. split; intros (f & ch & Hin & H); exists f, ch; (split; [| done]).
        * by right.
        * by apply elem_of_cons in Hin as [[=] | Hin].
      + destruct (Earlier.hasMarkdownFiles folder children) eqn:Hhas.
        * split; [intros _; exists folder, children; split; [left | done] | done].
        * rewrite IH. split; intros (f & ch & Hin & H); exists f, ch; (split; [| done]).
          -- by right.
          -- apply elem_of_cons in Hin as [[= -> ->] | Hin]; [congruence | done]. }
  rewrite Hloop. split.
  - intros (folder & children & Hin & Hhas). apply elem_of_map_to_list in Hin.
    apply Hmd in Hhas as (name & content & ? & ?). by exists folder, children, name, content.
  - intros (folder & children & name & content & Hfolder & Hname & Hext).
    exists folder, children. split; [by apply elem_of_map_to_list |]. apply Hmd. eauto.
Qed.

(** X13.  The earlier revision of [hasFolderStructure] accepted a board
    folder exactly when some sub-folder holds a [.md] file.  What it accepted
    the present one accepts; a board folder it rejected and the present one
    loads gives a board whose lanes are all empty. *)
Theorem earlier_detection_is_stricter
    (fails : Op → bool) (localeCompare : string → string → Z) (parseSettings : Text → Object)
    (w : World) (md : Text) :
  (Earlier.hasFolderStructure (vault w) = true
   ↔ ∃ folder children name content,
       vault w !! folder = Some (RFolder children)
       ∧ children !! name = Some (NFile content)
       ∧ extension (mkTFile folder name) = "md")
  ∧ (Earlier.hasFolderStructure (vault w) = true → hasFolderStructure (vault w) = true)
  ∧ (Earlier.hasFolderStructure (vault w) = false →
     ∀ board lane,
       loadFromFolderStructure fails localeCompare parseSettings w md = Some board →
       lane ∈ board_children board →
       lane_children lane = []).
Proof.
  split; [apply earlier_detection_characterised |]. split.
  - intros Hearlier.
    apply earlier_detection_characterised in Hearlier as (folder & children & _ & _ & Hfolder & _).
    unfold hasFolderStructure, boardChildren. apply hasFolderStructure_loop_true.
    exists (folder, RFolder children). split; [by apply elem_of_map_to_list | done].
  - intros Hearlier board lane Hboard Hlane.
    unfold loadFromFolderStructure in Hboard.
    destruct (parseMarkdown md) as [[frontmatter ast]|]; [| done].
    injection Hboard as <-. cbn [board_children] in Hlane.
    rewrite sort_Permutation in Hlane.
    apply list_elem_of_In, in_map_iff in Hlane as ([folder children] & <- & Hin).
    apply list_elem_of_In, columnFolders_spec in Hin. cbn [fst snd].
    destruct (lane_children (loadColumn fails localeCompare w folder children))
      as [|item rest] eqn:Hitems; [done |].
    destruct (loaded_lane_backed fails localeCompare w folder children item)
      as (name & content & _ & Hname & Hmd); [rewrite Hitems; left |].
    assert (Earlier.hasFolderStructure (vault w) = true); [| congruence].
    apply earlier_detection_characterised. by exists folder, children, name, content.
Qed.

(** ** What a save leaves of the board folder *)




















Lemma delete_files_run_faulty (fails : Op → bool) (folder : string) (files : list TFile)
    (w : World) (children : gmap string Node) :
  findFolder (vault w) folder = Some children →
  Forall (λ file, file_parent file = folder
                  ∧ ∀ node, children !! file_name file = Some node → ∃ content, node = NFile content)
    files →
  vault (foldl (λ w file, tryCatch (delete_ fails file) w) w files)
  = <[folder := RFolder (removed (filter (λ file, fails (OpDelete file) = false) files) children)]>
      (vault w).
Proof.
  revert w children. induction files as [|file rest IH]; intros w children Hfolder Hfiles.
  - simpl. apply findFolder_Some in Hfolder. by rewrite insert_id.
  - apply Forall_cons in Hfiles as [[Hparent Hfile] Hrest]. simpl.
    unfold tryCatch at 2, delete_, perform, delete_effect. rewrite filter_cons.
    destruct (fails (OpDelete file)) eqn:Hfails.
    + cbn [fst]. rewrite decide_False by done.
      change {| vault := vault w; journal := journal w ++ [(OpDelete file, false)] |}
        with (mkWorld (vault w) (journal w ++ [(OpDelete file, false)])).
      by rewrite (IH _ children).
    + rewrite decide_True by done. rewrite Hparent, Hfolder.
      destruct (children !! file_name file) as [node|] eqn:Hnode.
      * destruct (Hfile node eq_refl) as [content ->]. cbn [fst].
        rewrite (IH _ (delete (file_name file) children)).
        -- cbn [vault]. by rewrite insert_insert_eq.
        -- apply findFolder_insert.
        -- eapply Forall_impl; [exact Hrest |]. intros file' [Hparent' Hfile'].
           split; [done |]. intros node' Hnode'.
           apply lookup_delete_Some in Hnode' as [_ Hnode']. eauto.
      * cbn [fst]. rewrite (IH _ children); [| done |].
        -- cbn [vault]. unfold removed. simpl. by rewrite delete_id.
        -- eapply Forall_impl; [exact Hrest |]. naive_solver.
Qed.

(** X8.  [cleanupColumnFolder] touches the folder of its column only, and
    there it removes a child exactly when the child is a file with extension
    [md] whose name is not expected and whose deletion does not fail; every
    other child stays as it is. *)
Theorem cleanup_removes_only_orphans (fails : Op → bool) (columnName : string)
    (expectedFiles : gset string) (w : World) :
  (∀ folder, folder ≠ columnName →
     vault (cleanupColumnFolder fails columnName expectedFiles w) !! folder = vault w !! folder)
  ∧ (∀ name,
       getAbstractFileByPath (vault (cleanupColumnFolder fails columnName expectedFiles w))
         columnName name
       = match getAbstractFileByPath (vault w) columnName name with
         | Some (NFile content) =>
             if String.eqb (extension (mkTFile columnName name)) "md"
                && negb (bool_decide (name ∈ expectedFiles))
                && negb (fails (OpDelete (mkTFile columnName name)))
             then None else Some (NFile content)
         | other => other
         end).
Proof.
  destruct (findFolder (vault w) columnName) as [children|] eqn:Hfolder.
  - assert (Hvault : vault (cleanupColumnFolder fails columnName expectedFiles w)
                     = <[columnName := RFolder
                           (removed (filter (λ file, fails (OpDelete file) = false)
                                       (filesToRemove columnName children expectedFiles))
                              children)]> (vault w)).
    { unfold cleanupColumnFolder. rewrite Hfolder.
      apply delete_files_run_faulty; [done |]. apply Forall_forall. intros file Hfile.
      apply filesToRemove_spec in Hfile as (name & content & -> & Hname & _ & _).
      split; [done |]. simpl. intros node. rewrite Hname. intros [= <-]. by eexists. }
    rewrite Hvault. split.
    + intros folder Hne. by rewrite lookup_insert_ne.
    + intros name. unfold getAbstractFileByPath. rewrite findFolder_insert, Hfolder.
      rewrite removed_lookup. case_decide as Hremoved.
      * apply list_elem_of_fmap in Hremoved as (file & -> & Hfile).
        apply list_elem_of_filter in Hfile as [Hok Hfile].
        apply filesToRemove_spec in Hfile as (name & content & -> & Hname & Hmd & Hexpected).
        simpl. rewrite Hname, Hmd, Hok. by rewrite bool_decide_eq_false_2.
      * destruct (children !! name) as [[content|]|] eqn:Hname; [| done | done].
        destruct (String.eqb_spec (extension (mkTFile columnName name)) "md") as [Hmd|];
          [| done].
        case_bool_decide as Hexpected; [done |].
        destruct (fails (OpDelete (mkTFile columnName name))) eqn:Hfails; [done |].
        destruct Hremoved. apply list_elem_of_fmap. exists (mkTFile columnName name).
        split; [done |]. apply list_elem_of_filter. split; [done |].
        apply filesToRemove_spec. by exists name, content.
  - unfold cleanupColumnFolder. rewrite Hfolder. split; [done |].
    intros name. unfold getAbstractFileByPath. by rewrite Hfolder.
Qed.

(** X17.  Whichever operations fail, [saveAllItemsToFolders] leaves the
    board in memory as it was up to the file references of the items: the
    settings, the front matter, the lanes with their titles and order, and
    the items of each lane with their order and every field but [file]. *)
Theorem save_changes_only_file_references (fails : Op → bool) (board : Board) (w : World) :
  board_settings (saveAllItemsToFolders fails board w).1 = board_settings board
  ∧ board_frontmatter (saveAllItemsToFolders fails board w).1 = board_frontmatter board
  ∧ Forall2 (λ lane lane',
               lane_title lane' = lane_title lane
               ∧ Forall2 sameButFile (lane_children lane) (lane_children lane'))
      (board_children board) (board_children (saveAllItemsToFolders fails board w).1)
  ∧ itemCount (board_children (saveAllItemsToFolders fails board w).1)
    = itemCount (board_children board).
Proof.
  unfold saveAllItemsToFolders.
  pose proof (saveLanes_titles fails (board_children board) w) as Hlanes.
  destruct (saveLanes fails (board_children board) w) as [lanes w']. simpl in *.
  split; [done |]. split; [done |]. split; [exact Hlanes |].
  unfold itemCount. induction Hlanes as [|lane lane' rest rest' [_ Hitems] _ IH]; simpl; [done |].
  by rewrite IH, (Forall2_length _ _ _ Hitems).
Qed.

(** ** One attempt for every item *)

Lemma journalGrows_refl (w : World) : journalGrows 0 w w.
Proof. exists []. by rewrite app_nil_r. Qed.

Lemma journalGrows_trans (n m : nat) (w1 w2 w3 : World) :
  journalGrows n w1 w2 → journalGrows m w2 w3 → journalGrows (n + m) w1 w3.
Proof.
  intros (l1 & H1 & Hn) (l2 & H2 & Hm). exists (l1 ++ l2)%list.
  rewrite H2, H1, <- app_assoc, length_app. split; [done | lia].
Qed.

Lemma journalGrows_weaken (n m : nat) (w w' : World) :
  (m ≤ n)%nat → journalGrows n w w' → journalGrows m w w'.
Proof. intros Hle (l & H & Hn). exists l. split; [done | lia]. Qed.

Lemma journalGrows_perform (fails : Op → bool) (op : Op) (effect : Vault → option Vault)
    (w : World) :
  journalGrows 1 w (perform fails op effect w).1.
Proof.
  unfold perform. destruct (if fails op then None else effect (vault w)); simpl;
    eexists; split; try reflexivity; simpl; lia.
Qed.

Lemma logs_ret {A} (a : A) : logs (ret a).
Proof. intros s. apply journalGrows_refl. Qed.

Lemma logs_throw {A} (e : string) : logs (@throw SaveState A e).
Proof. intros s. apply journalGrows_refl. Qed.

Lemma logs_bind {A B} (m : M SaveState A) (k : A → M SaveState B) :
  logs m → (∀ a, logs (k a)) → logs (bind m k).
Proof.
  intros Hm Hk s. unfold bind. specialize (Hm s).
  destruct (m s) as [s' [a|e]]; simpl in *; [| done].
  apply (journalGrows_trans 0 0 _ _ _ Hm (Hk a s')).
Qed.

Lemma logs_theItem : logs theItem.
Proof. intros s. apply journalGrows_refl. Qed.

Lemma logs_theVault : logs theVault.
Proof. intros s. apply journalGrows_refl. Qed.

Lemma logs_assignFile (v : Value) : logs (assignFile v).
Proof. intros s. apply journalGrows_refl. Qed.

Lemma logs_io (fails : Op → bool) (op : Op) (effect : Vault → option Vault) :
  logs (io (perform fails op effect)).
Proof.
  intros [item w]. unfold io. simpl.
  pose proof (journalGrows_perform fails op effect w) as H.
  destruct (perform fails op effect w). simpl in *.
  eapply (journalGrows_weaken 1); [lia | done].
Qed.

Ltac logs_tac :=
  repeat first
    [ apply logs_bind; [| intros ?]
    | apply logs_ret
    | apply logs_throw
    | apply logs_theItem
    | apply logs_theVault
    | apply logs_assignFile
    | apply logs_io
    | match goal with
      | |- logs (match ?x with _ => _ end) => destruct x
      end ].

(** A computation that starts with a file operation. *)
Lemma attempt_first {A} (fails : Op → bool) (op : Op) (effect : Vault → option Vault)
    (k : unit → M SaveState A) (s : SaveState) :
  (∀ a, logs (k a)) →
  journalGrows 1 s.2 (bind (io (perform fails op effect)) k s).1.2.
Proof.
  intros Hk. destruct s as [item w]. unfold bind, io. simpl.
  pose proof (journalGrows_perform fails op effect w) as H.
  destruct (perform fails op effect w) as [w' [[]|e]]; simpl in *; [| done].
  apply (journalGrows_trans 1 0 _ _ _ H (Hk tt (item, w'))).
Qed.

Lemma saveItemToCorrectFolder_attempts (fails : Op → bool) (columnName : string)
    (item : Item) (w : World) :
  journalGrows 1 w (saveItemToCorrectFolder fails columnName (item, w)).1.2.
Proof.
  unfold saveItemToCorrectFolder. unfold bind at 1. unfold theItem at 1. cbn [fst snd].
  destruct (itemFile item) as [existingFile|].
  - destruct (String.eqb (file_parent existingFile) columnName).
    + unfold updateItemFileContent, bind, theItem, io, modify. cbn [fst snd].
      pose proof (journalGrows_perform fails (OpModify existingFile)
                    (modify_effect existingFile (generateItemFileContent item)) w) as H.
      by destruct (perform fails _ _ w).
    + unfold moveItemToNewColumn, ensureColumnFolder.
      unfold bind at 1. unfold bind at 1. unfold theVault at 1. cbn [fst snd].
      assert (Hrest : ∀ (s : SaveState) (name : string),
                journalGrows 1 s.2
                  (bind (bind (io (renameFile fails existingFile columnName name))
                           (λ _, v <- theVault ;; assignFile (fileAt v columnName name)))
                     (λ _, item <- theItem ;;
                           updateItemFileContent fails (metadata (item_data item) !! "file"))
                     s).1.2).
      { intros s name. unfold bind at 1. unfold bind at 1.
        destruct s as [item0 w0]. unfold io at 1, renameFile. cbn [fst snd].
        pose proof (journalGrows_perform fails (OpRename existingFile columnName name)
                      (rename_effect existingFile columnName name) w0) as H.
        destruct (perform fails _ _ w0) as [w1 [[]|e]]; cbn [fst snd] in *; [| done].
        eapply (journalGrows_trans 1 0); [exact H |].
        assert (Hlogs : logs (bind (bind theVault (λ v, assignFile (fileAt v columnName name)))
                                (λ _, item <- theItem ;;
                                      updateItemFileContent fails
                                        (metadata (item_data item) !! "file")))).
        { unfold updateItemFileContent, modify. logs_tac. }
        specialize (Hlogs (item0, w1)). unfold bind in Hlogs at 1. exact Hlogs. }
      assert (Hmove : ∀ s : SaveState,
                journalGrows 1 s.2
                  ((v <- theVault ;;
                    let target := default ∅ (findFolder v columnName) in
                    (match target !! file_name existingFile with
                     | Some _ =>
                         if bool_decide (file_parent existingFile ≠ columnName) then
                           match moveProbe (S (size target)) target
                                   (basename existingFile) (extension existingFile) 1 with
                           | Some uniqueName =>
                               io (renameFile fails existingFile columnName uniqueName) ;;;
                               v <- theVault ;;
                               assignFile (fileAt v columnName uniqueName)
                           | None => throw "unreachable"
                           end
                         else
                           io (renameFile fails existingFile columnName (file_name existingFile)) ;;;
                           v <- theVault ;;
                           assignFile (fileAt v columnName (file_name existingFile))
                     | None =>
                         io (renameFile fails existingFile columnName (file_name existingFile)) ;;;
                         v <- theVault ;;
                         assignFile (fileAt v columnName (file_name existingFile))
                     end) ;;;
                    item <- theItem ;;
                    updateItemFileContent fails (metadata (item_data item) !! "file")) s).1.2).
      { intros s. unfold bind at 1. unfold theVault at 1. cbn [fst snd].
        set (target := default ∅ (findFolder (vault s.2) columnName)).
        destruct (target !! file_name existingFile); [| apply Hrest].
        destruct (bool_decide (file_parent existingFile ≠ columnName)); [| apply Hrest].
        destruct (moveProbe_result (S (size target)) target (basename existingFile)
                    (extension existingFile) 1) as (j & _ & _ & _ & Hprobe);
          [intros i Hi; lia | lia |].
        rewrite Hprobe. apply Hrest. }
      destruct (findFolder (vault w) columnName).
      * unfold ret at 1. cbn [fst snd]. apply (Hmove (item, w)).
      * unfold io at 1, createFolder. cbn [fst snd].
        pose proof (journalGrows_perform fails (OpCreateFolder columnName)
                      (createFolder_effect columnName) w) as H.
        destruct (perform fails _ _ w) as [w1 [[]|e]]; cbn [fst snd] in *; [| done].
        eapply (journalGrows_weaken (1 + 1)); [lia |].
        eapply journalGrows_trans; [exact H | apply (Hmove (item, w1))].
  - unfold createNewItemFile, ensureColumnFolder.
    unfold bind at 1. unfold bind at 1. unfold theVault at 1. cbn [fst snd].
    assert (Hcreate : ∀ s : SaveState,
              journalGrows 1 s.2
                ((v <- theVault ;;
                  item <- theItem ;;
                  let target := default ∅ (findFolder v columnName) in
                  let sanitizedTitle := sanitizedTitle item in
                  let baseName := JsString.orElse sanitizedTitle "untitled" in
                  match createProbe (S (size target)) target baseName (baseName +:+ ".md") 1 with
                  | Some filename =>
                      let fileContent := generateItemFileContent item in
                      io (create fails columnName filename fileContent) ;;;
                      assignFile (VFile (mkTFile columnName filename))
                  | None => throw "unreachable"
                  end) s).1.2).
    { intros [item0 w0]. unfold bind at 1. unfold theVault at 1. cbn [fst snd].
      unfold bind at 1. unfold theItem at 1. cbn [fst snd].
      set (target := default ∅ (findFolder (vault w0) columnName)).
      set (baseName := JsString.orElse (sanitizedTitle item0) "untitled").
      destruct (createProbe_result (S (size target)) target baseName 0)
        as (k & _ & _ & Hprobe); [intros i Hi; lia | lia |].
      change (baseName +:+ ".md") with (candidate baseName 0). rewrite Hprobe.
      unfold create. apply (attempt_first fails _ _ _ (item0, w0)).
      intros []. logs_tac. }
    destruct (findFolder (vault w) columnName).
    + unfold ret at 1. cbn [fst snd]. apply (Hcreate (item, w)).
    + unfold io at 1, createFolder. cbn [fst snd].
      pose proof (journalGrows_perform fails (OpCreateFolder columnName)
                    (createFolder_effect columnName) w) as H.
      destruct (perform fails _ _ w) as [w1 [[]|e]]; cbn [fst snd] in *; [| done].
      eapply (journalGrows_weaken (1 + 1)); [lia |].
      eapply journalGrows_trans; [exact H | apply (Hcreate (item, w1))].
Qed.

Lemma journalGrows_cleanup (fails : Op → bool) (columnName : string)
    (expectedFiles : gset string) (w : World) :
  journalGrows 0 w (cleanupColumnFolder fails columnName expectedFiles w).
Proof.
  unfold cleanupColumnFolder. destruct (findFolder (vault w) columnName) as [children|];
    [| apply journalGrows_refl].
  generalize (filesToRemove columnName children expectedFiles). intros files. revert w.
  induction files as [|file files IH]; intros w; simpl; [apply journalGrows_refl |].
  eapply (journalGrows_trans 0 0); [| apply IH]. unfold tryCatch, delete_.
  eapply (journalGrows_weaken 1); [lia | apply journalGrows_perform].
Qed.

Lemma journalGrows_saveItems (fails : Op → bool) (columnName : string) (items : list Item)
    (expectedFiles : gset string) (w : World) :
  journalGrows (length items) w (saveItems fails columnName items expectedFiles w).2.
Proof.
  revert expectedFiles w. induction items as [|item rest IH]; intros expectedFiles w; simpl;
    [apply journalGrows_refl |].
  pose proof (saveItemToCorrectFolder_attempts fails columnName item w) as Hitem.
  destruct (saveItemToCorrectFolder fails columnName (item, w)) as [[item' w'] outcome].
  match goal with |- context [saveItems fails columnName rest ?e w'] =>
    specialize (IH e w'); destruct (saveItems fails columnName rest e w') as [[rest' e''] w'']
  end.
  simpl in *. apply (journalGrows_trans 1 _ _ _ _ Hitem IH).
Qed.

Lemma journalGrows_saveLanes (fails : Op → bool) (lanes : list Lane) (w : World) :
  journalGrows (itemCount lanes) w (saveLanes fails lanes w).2.
Proof.
  revert w. induction lanes as [|lane rest IH]; intros w; simpl; [apply journalGrows_refl |].
  unfold saveLane.
  pose proof (journalGrows_saveItems fails (lane_title lane) (lane_children lane) ∅ w) as Hitems.
  destruct (saveItems fails (lane_title lane) (lane_children lane) ∅ w)
    as [[items expectedFiles] w1].
  pose proof (journalGrows_cleanup fails (lane_title lane) expectedFiles w1) as Hcleanup.
  match goal with |- context [saveLanes fails rest ?w2] =>
    specialize (IH w2); destruct (saveLanes fails rest w2) as [rest' w3]
  end.
  simpl in *. unfold itemCount. simpl.
  eapply journalGrows_trans; [| exact IH].
  eapply (journalGrows_weaken (length (lane_children lane) + 0)); [lia |].
  by eapply journalGrows_trans.
Qed.

(** X12.  Whichever operations fail, the save of an item attempts at least
    one file operation, and the save of a board only adds to the journal, by
    at least as many entries as the board has items: a failure on one item
    stops neither the items after it nor the columns after it. *)
Theorem every_item_is_attempted (fails : Op → bool) (board : Board) (w : World) :
  (∀ columnName item,
     ∃ entries : list (Op * bool),
       journal (saveItemToCorrectFolder fails columnName (item, w)).1.2
       = (journal w ++ entries)%list
       ∧ entries ≠ [])
  ∧ ∃ entries : list (Op * bool),
      journal (saveAllItemsToFolders fails board w).2 = (journal w ++ entries)%list
      ∧ (itemCount (board_children board) ≤ length entries)%nat.
Proof.
  split.
  - intros columnName item.
    destruct (saveItemToCorrectFolder_attempts fails columnName item w) as (entries & H & Hlen).
    exists entries. split; [done |]. destruct entries; [simpl in Hlen; lia | done].
  - pose proof (journalGrows_saveLanes fails (board_children board) w) as H.
    unfold saveAllItemsToFolders.
    by destruct (saveLanes fails (board_children board) w).
Qed.

(** ** The save of a single item *)

Lemma stripMdSuffix_md (s : string) : stripMdSuffix (s +:+ ".md") = s.
Proof.
  induction s as [|c s IH]; [reflexivity |].
  change (String c s +:+ ".md") with (String c (s +:+ ".md")).
  cbn [stripMdSuffix]. rewrite IH.
  destruct (String.eqb (String c (s +:+ ".md")) ".md") eqn:Heq; [| done].
  apply String.eqb_eq in Heq. injection Heq as _ Heq.
  destruct s as [|c1 [|c2 [|c3 s]]]; unfold String.append in Heq; simpl in Heq; congruence.
Qed.

Lemma saveItemFrontmatter_fields (item : Item) :
  (∀ key, key ≠ "completed" → key ≠ "id" →
     saveItemFrontmatter item !! key = generateItemFrontmatter item !! key)
  ∧ saveItemFrontmatter item !! "completed"
    = (if String.eqb (checkChar (item_data item)) "x" then Some (VBool true)
       else metadata (item_data item) !! "completed")
  ∧ saveItemFrontmatter item !! "id" = Some (VStr (stripMdSuffix (saveItemFilename item))).
Proof.
  unfold saveItemFrontmatter, generateItemFrontmatter.
  destruct (String.eqb (checkChar (item_data item)) "x"), (itemFile item);
    (split; [intros key ? ? |]); repeat split; try by simplify_map_eq.
  all: destruct (decide (key = "file")) as [-> |]; [by simplify_map_eq |];
       destruct (decide (key = "tags")) as [-> |]; [by simplify_map_eq |];
       destruct (decide (key = "aliases")) as [-> |]; [by simplify_map_eq |];
       destruct (decide (key = "parent_id")) as [-> |]; [by simplify_map_eq |];
       by simplify_map_eq.
Qed.

Lemma saveItem_run (fails : Op → bool) (item : Item) (columnName : string) (w : World) :
  (∀ content, vault w !! columnName ≠ Some (RFile content)) →
  getAbstractFileByPath (vault w) columnName (saveItemFilename item) ≠ Some NFolder →
  fails (OpCreateFolder columnName) = false →
  fails (OpCreate columnName (saveItemFilename item)) = false →
  fails (OpModify (mkTFile columnName (saveItemFilename item))) = false →
  let target := default ∅ (findFolder (vault w) columnName) in
  saveItem fails item columnName w
  = (mkWorld
       (<[columnName := RFolder (<[saveItemFilename item
                                    := NFile (Markdown (saveItemFrontmatter item) [])]> target)]>
          (vault (withColumnFolder columnName w)))
       (journal (withColumnFolder columnName w)
          ++ [(match target !! saveItemFilename item with
               | Some _ => OpModify (mkTFile columnName (saveItemFilename item))
               | None => OpCreate columnName (saveItemFilename item)
               end, true)]),
     Ok tt).
Proof.
  intros Hnofile Hnofolder HcreateFolder Hcreate Hmodify target.
  unfold saveItem, withColumnFolder, bind, get, ret, createFolder, create, modify, perform,
    createFolder_effect, create_effect, modify_effect, getAbstractFileByPath in *.
  unfold target. unfold findFolder in *.
  destruct (vault w !! columnName) as [[content|children]|] eqn:Hcol; simpl in *.
  - by destruct (Hnofile content).
  - rewrite Hcol. simpl.
    destruct (children !! saveItemFilename item) as [[content|]|] eqn:Hname; simpl.
    + rewrite Hmodify. simpl. by rewrite Hcol, Hname.
    + done.
    + rewrite Hcreate. simpl. by rewrite Hcol, Hname.
  - rewrite HcreateFolder, Hcol. simpl. rewrite lookup_insert_eq. simpl.
    rewrite lookup_empty, Hcreate. simpl. by rewrite lookup_insert_eq, lookup_empty.
Qed.

Lemma splitExtension_name (name base ext : string) :
  splitExtension name = (base, Some ext) → name = base +:+ "." +:+ ext.
Proof.
  revert base. induction name as [|c name IH]; intros base; simpl; [done |].
  destruct (splitExtension name) as [b [e|]] eqn:Hsplit.
  - intros [= <- <-]. by rewrite (IH b eq_refl).
  - destruct (Ascii.eqb c ".") eqn:Hc; [| done]. apply Ascii.eqb_eq in Hc as ->.
    by intros [= <- <-].
Qed.

Lemma markdown_file_name (file : TFile) :
  extension file = "md" → file_name file = basename file +:+ ".md".
Proof.
  unfold extension, basename. destruct (splitExtension (file_name file)) as [b [e|]] eqn:Hsplit;
    simpl; [| done].
  intros ->. by apply splitExtension_name.
Qed.

(** X9.  The front matter the public [saveItem] writes against the one
    [generateItemFileContent] writes, for an item without file or with a
    [.md] file: they agree on every key but [completed], and are equal for an
    item with the check character [x].  For any other item [saveItem] keeps
    the [completed] of the metadata, which [generateItemFileContent] drops;
    what [saveItem] writes is read back as completed whenever what
    [generateItemFileContent] writes is. *)
Theorem saveItem_content_against_generated (item : Item) :
  (itemFile item = None ∨ ∃ file, itemFile item = Some file ∧ extension file = "md") →
  (∀ key, key ≠ "completed" →
     saveItemFrontmatter item !! key = generateItemFrontmatter item !! key)
  ∧ (checkChar (item_data item) = "x" →
     saveItemFrontmatter item = generateItemFrontmatter item)
  ∧ (checkChar (item_data item) ≠ "x" →
     saveItemFrontmatter item !! "completed" = metadata (item_data item) !! "completed"
     ∧ generateItemFrontmatter item !! "completed" = None
     ∧ (isCompleted (generateItemFrontmatter item) = true →
        isCompleted (saveItemFrontmatter item) = true)).
Proof.
  intros Hfile.
  destruct (saveItemFrontmatter_fields item) as (Hother & Hcompleted & Hid).
  destruct (generateItemFrontmatter_fields item) as (Hpass & _ & Hcompleted' & _ & _ & _ & Hid').
  assert (Hids : saveItemFrontmatter item !! "id" = generateItemFrontmatter item !! "id").
  { rewrite Hid, Hid'. unfold saveItemFilename.
    destruct Hfile as [-> | (file & -> & Hmd)]; [by rewrite stripMdSuffix_md |].
    by rewrite (markdown_file_name file Hmd), stripMdSuffix_md. }
  assert (Hkeys : ∀ key, key ≠ "completed" →
            saveItemFrontmatter item !! key = generateItemFrontmatter item !! key).
  { intros key Hkey. destruct (decide (key = "id")) as [-> |]; [done | by apply Hother]. }
  split; [exact Hkeys |]. split.
  - intros Hx. apply map_eq. intros key.
    destruct (decide (key = "completed")) as [-> |]; [| by apply Hkeys].
    by rewrite Hcompleted, Hcompleted', Hx.
  - intros Hx. apply String.eqb_neq in Hx.
    rewrite Hcompleted, Hcompleted', Hx. split; [done |]. split; [done |].
    rewrite !isCompleted_iff, Hcompleted, Hcompleted', Hx, !Hkeys by done. naive_solver.
Qed.

Lemma saveItem_content_against_generated_witness :
  itemFile (newItem "Task" " ") = None
  ∧ saveItemFrontmatter (newItem "Task" " ") !! "id" = Some (VStr "Task").
Proof.
  split; [reflexivity |].
  destruct (saveItem_content_against_generated (newItem "Task" " ") (or_introl eq_refl))
    as (Hkeys & _).
  rewrite Hkeys by done. vm_compute. reflexivity.
Defined.

(** X10.  [saveItem], when the operations it needs do not fail, writes the
    content to the file named after the file of the item, or after its
    sanitized title, in the folder of the column, creating the folder and the
    file when missing and overwriting the file otherwise; every other path of
    the vault is left as it is. *)
Theorem saveItem_writes_in_place (fails : Op → bool) (item : Item) (columnName : string)
    (w : World) :
  (∀ content, vault w !! columnName ≠ Some (RFile content)) →
  getAbstractFileByPath (vault w) columnName (saveItemFilename item) ≠ Some NFolder →
  fails (OpCreateFolder columnName) = false →
  fails (OpCreate columnName (saveItemFilename item)) = false →
  fails (OpModify (mkTFile columnName (saveItemFilename item))) = false →
  (saveItem fails item columnName w).2 = Ok tt
  ∧ getAbstractFileByPath (vault (saveItem fails item columnName w).1)
      columnName (saveItemFilename item)
    = Some (NFile (Markdown (saveItemFrontmatter item) []))
  ∧ (∀ folder name,
       folder ≠ columnName ∨ name ≠ saveItemFilename item →
       getAbstractFileByPath (vault (saveItem fails item columnName w).1) folder name
       = getAbstractFileByPath (vault w) folder name).
Proof.
  intros Hnofile Hnofolder HcreateFolder Hcreate Hmodify.
  rewrite (saveItem_run fails item columnName w) by done. cbn [fst snd vault].
  assert (Hfind : ∀ folder, folder ≠ columnName →
            findFolder (vault (withColumnFolder columnName w)) folder
            = findFolder (vault w) folder).
  { intros folder Hne. unfold withColumnFolder.
    destruct (findFolder (vault w) columnName); [done |]. simpl. unfold findFolder.
    by rewrite lookup_insert_ne. }
  split; [done |]. split.
  - unfold getAbstractFileByPath. by rewrite findFolder_insert, lookup_insert_eq.
  - intros folder name Hother. unfold getAbstractFileByPath.
    destruct (decide (folder = columnName)) as [-> | Hne].
    + destruct Hother as [? | Hname]; [done |].
      rewrite findFolder_insert, lookup_insert_ne by done.
      destruct (findFolder (vault w) columnName); [done |]. apply lookup_empty.
    + unfold findFolder at 1. rewrite lookup_insert_ne by done.
      fold (findFolder (vault (withColumnFolder columnName w)) folder). by rewrite Hfind.
Qed.

Lemma saveItem_writes_in_place_witness :
  (∀ content, vault (mkWorld ∅ []) !! "Todo" ≠ Some (RFile content))
  ∧ getAbstractFileByPath (vault (mkWorld ∅ [])) "Todo" (saveItemFilename (newItem "My Task!!" "x"))
    ≠ Some NFolder
  ∧ (saveItem noFault (newItem "My Task!!" "x") "Todo" (mkWorld ∅ [])).2 = Ok tt
  ∧ getAbstractFileByPath (vault (saveItem noFault (newItem "My Task!!" "x") "Todo" (mkWorld ∅ [])).1)
      "Todo" "My Task.md"
    = Some (NFile (Markdown (saveItemFrontmatter (newItem "My Task!!" "x")) [])).
Proof.
  assert (Hnofile : ∀ content, vault (mkWorld ∅ []) !! "Todo" ≠ Some (RFile content)) by done.
  assert (Hnofolder : getAbstractFileByPath (vault (mkWorld ∅ [])) "Todo"
                        (saveItemFilename (newItem "My Task!!" "x")) ≠ Some NFolder) by done.
  split; [exact Hnofile |]. split; [exact Hnofolder |].
  destruct (saveItem_writes_in_place noFault (newItem "My Task!!" "x") "Todo" (mkWorld ∅ [])
              Hnofile Hnofolder eq_refl eq_refl eq_refl) as (Hok & Hfile & _).
  split; [exact Hok | exact Hfile].
Defined.

(** ** Names made from titles *)

Lemma filter_Forall (keep : ascii → bool) (s : string) :
  Forall (λ c, keep c = true) (list_ascii_of_string (JsString.filter keep s)).
Proof.
  induction s as [|c s IH]; simpl; [constructor |].
  destruct (keep c) eqn:Hc; [| done]. simpl. by constructor.
Qed.

Lemma filter_fixed (keep : ascii → bool) (s : string) :
  Forall (λ c, keep c = true) (list_ascii_of_string s) → JsString.filter keep s = s.
Proof.
  induction s as [|c s IH]; simpl; [done |].
  intros H. apply Forall_cons in H as [-> H]. by rewrite IH.
Qed.

Lemma trimStart_Forall (P : ascii → Prop) (s : string) :
  Forall P (list_ascii_of_string s) → Forall P (list_ascii_of_string (JsString.trimStart s)).
Proof.
  induction s as [|c s IH]; simpl; [done |].
  intros H. destruct (JsString.isWhiteSpace c); [| done].
  apply Forall_cons in H as [_ H]. by apply IH.
Qed.

Lemma trimEnd_Forall (P : ascii → Prop) (s : string) :
  Forall P (list_ascii_of_string s) → Forall P (list_ascii_of_string (JsString.trimEnd s)).
Proof.
  induction s as [|c s IH]; simpl; [done |].
  intros H. apply Forall_cons in H as [Hc H]. specialize (IH H).
  destruct (JsString.trimEnd s) as [|c' s'].
  - destruct (JsString.isWhiteSpace c); simpl; [constructor | by constructor].
  - simpl. by constructor.
Qed.

Lemma trimStart_starts (s : string) : startsWithoutSpace (JsString.trimStart s).
Proof.
  induction s as [|c s IH]; simpl; [done |].
  by destruct (JsString.isWhiteSpace c) eqn:Hc.
Qed.

Lemma trimEnd_starts (s : string) :
  startsWithoutSpace s → startsWithoutSpace (JsString.trimEnd s).
Proof.
  destruct s as [|c s]; simpl; [done |]. intros Hc.
  destruct (JsString.trimEnd s); [by rewrite Hc | done].
Qed.

Lemma trimStart_fixed (s : string) : startsWithoutSpace s → JsString.trimStart s = s.
Proof. destruct s as [|c s]; simpl; [done |]. by intros ->. Qed.

Lemma trimEnd_idem (s : string) : JsString.trimEnd (JsString.trimEnd s) = JsString.trimEnd s.
Proof.
  induction s as [|c s IH]; simpl; [done |].
  destruct (JsString.trimEnd s) as [|c' s'] eqn:Hs.
  - destruct (JsString.isWhiteSpace c) eqn:Hc; simpl; [done | by rewrite Hc].
  - cbn [JsString.trimEnd]. cbn [JsString.trimEnd] in IH. by rewrite IH.
Qed.

Lemma trimEnd_last (s front : string) (c : ascii) :
  JsString.trimEnd s = front +:+ String c "" → JsString.isWhiteSpace c = false.
Proof.
  revert front. induction s as [|c0 s IH]; intros front; simpl.
  - destruct front; discriminate.
  - destruct (JsString.trimEnd s) as [|c' s'] eqn:Hs.
    + destruct (JsString.isWhiteSpace c0) eqn:Hc0.
      * destruct front; discriminate.
      * destruct front as [|f [|f' front]]; unfold String.append; simpl; intros [=]; by subst.
    + destruct front as [|f front]; unfold String.append; simpl; [intros [=] |].
      fold (String.append front (String c "")). intros [= -> Heq]. by apply (IH front).
Qed.

(** X14.  The sanitized title, from which [createNewItemFile],
    [generateItemFileContent] and [saveItem] make names: every character of
    it is a letter, a digit, white space, [-] or [_], so it holds neither a
    path separator nor a dot; it neither starts nor ends with white space;
    sanitizing it again changes nothing. *)
Theorem sanitizedTitle_safe (item : Item) :
  Forall (λ c, keptInFileName c = true) (list_ascii_of_string (sanitizedTitle item))
  ∧ (∀ c, c ∈ list_ascii_of_string (sanitizedTitle item) → c ≠ "/"%char ∧ c ≠ "."%char)
  ∧ startsWithoutSpace (sanitizedTitle item)
  ∧ (∀ front c, sanitizedTitle item = front +:+ String c "" → JsString.isWhiteSpace c = false)
  ∧ sanitizedTitle (updateItemContent item (sanitizedTitle item)) = sanitizedTitle item.
Proof.
  assert (Hkept : Forall (λ c, keptInFileName c = true) (list_ascii_of_string (sanitizedTitle item))).
  { unfold sanitizedTitle, JsString.trim. apply trimEnd_Forall, trimStart_Forall, filter_Forall. }
  assert (Hstart : startsWithoutSpace (sanitizedTitle item)).
  { unfold sanitizedTitle, JsString.trim. apply trimEnd_starts, trimStart_starts. }
  split; [exact Hkept |]. rewrite Forall_forall in Hkept.
  split; [intros c Hin; apply Hkept in Hin; split; by intros -> |].
  split; [exact Hstart |]. split.
  - intros front c. unfold sanitizedTitle, JsString.trim. apply trimEnd_last.
  - unfold sanitizedTitle at 1. cbn [updateItemContent item_data titleRaw].
    rewrite filter_fixed by by apply Forall_forall.
    unfold JsString.trim. rewrite trimStart_fixed by done.
    unfold sanitizedTitle, JsString.trim. apply trimEnd_idem.
Qed.

(** ** The key of the descriptor *)

(** X16.  In the front matter of the descriptor the plugin key holds the
    value the front matter of the board gives it, and [board] only when the
    board gives none: the spread comes last.  The front matter written is the
    one of the board exactly when the board has the key, writing is
    idempotent, and the board loaded from a descriptor so written writes the
    same front matter again. *)
Theorem descriptor_key_follows_board (frontmatterKey : string) (frontmatter : Object) :
  descriptorFrontmatter frontmatterKey frontmatter !! frontmatterKey
  = Some (default (VStr "board") (frontmatter !! frontmatterKey))
  ∧ (descriptorFrontmatter frontmatterKey frontmatter = frontmatter
     ↔ is_Some (frontmatter !! frontmatterKey))
  ∧ descriptorFrontmatter frontmatterKey (descriptorFrontmatter frontmatterKey frontmatter)
    = descriptorFrontmatter frontmatterKey frontmatter
  ∧ (∀ fails localeCompare parseSettings w ast board,
       loadFromFolderStructure fails localeCompare parseSettings w
         (Markdown (descriptorFrontmatter frontmatterKey frontmatter) ast) = Some board →
       descriptorFrontmatter frontmatterKey (board_frontmatter board)
       = descriptorFrontmatter frontmatterKey frontmatter).
Proof.
  assert (Hkey : descriptorFrontmatter frontmatterKey frontmatter !! frontmatterKey
                 = Some (default (VStr "board") (frontmatter !! frontmatterKey))).
  { unfold descriptorFrontmatter. rewrite lookup_union.
    rewrite lookup_singleton_eq. by destruct (frontmatter !! frontmatterKey). }
  assert (Hfixed : ∀ fm : Object, is_Some (fm !! frontmatterKey) →
            descriptorFrontmatter frontmatterKey fm = fm).
  { intros fm [v Hv]. apply map_eq. intros key. unfold descriptorFrontmatter.
    rewrite lookup_union. destruct (decide (key = frontmatterKey)) as [-> | Hne].
    - by rewrite Hv, lookup_singleton_eq.
    - rewrite lookup_singleton_ne by done. by destruct (fm !! key). }
  assert (Hidem : descriptorFrontmatter frontmatterKey
                    (descriptorFrontmatter frontmatterKey frontmatter)
                  = descriptorFrontmatter frontmatterKey frontmatter).
  { apply Hfixed. rewrite Hkey. by eexists. }
  split; [exact Hkey |]. split; [| split; [exact Hidem |]].
  - split; [| apply Hfixed]. intros Heq. rewrite <- Heq, Hkey. by eexists.
  - intros fails localeCompare parseSettings w ast board Hload.
    unfold loadFromFolderStructure in Hload. simpl in Hload. injection Hload as <-.
    exact Hidem.
Qed.
